(** * SalesBot notebook: review aggregation, summarisation, ingestion, retrieval

    A shallow embedding of the Python cells of
    [end-to-end-use-cases/customerservice_chatbots/ai_agent_chatbot/SalesBot.ipynb].

    Python lists are [list]s, Python [str] is [string], Python [int] is [Z],
    insertion-ordered Python dicts with string keys are association lists
    that keep their keys distinct and in insertion order.  The hosted
    services and library calls (chat completion, [json.loads], the vector
    store) are fields of three records the cells are parameterised by; code
    that can raise lives in a state-and-exception monad whose state
    survives a raised exception, as Python's does. *)

From Stdlib Require Import List String Ascii ZArith Lia Bool Arith.
From Stdlib Require Import Permutation Sorted DecimalString ZifyNat.
Import ListNotations.

Local Open Scope string_scope.
Local Open Scope Z_scope.
Local Open Scope list_scope.

Set Implicit Arguments.

(* Let [lia] reason about division and remainder by a constant. *)
Ltac Zify.zify_post_hook ::= Z.to_euclidean_division_equations.

(** ** Python values and built-ins *)

(** What [json.loads] can return. Floats are kept as their literal. *)
#[warnings="-register-all"]
Inductive pyval : Type :=
| PyNone
| PyBool (b : bool)
| PyInt (n : Z)
| PyFloat (lit : string)
| PyStr (s : string)
| PyList (l : list pyval)
| PyDict (d : list (string * pyval)).

Inductive exn : Type :=
| KeyError (key : string)
| NameError (name : string)
| TypeError
| ValueError (msg : string)
| ServiceError (msg : string).

Inductive outcome (A : Type) : Type :=
| Ok (a : A)
| Raise (e : exn).

Arguments Ok {A} a.
Arguments Raise {A} e.

Module Dict.

Definition t (V : Type) : Type := list (string * V).

Definition empty {V} : t V := [].

Definition keys {V} (d : t V) : list string := map fst d.

(** [d[k]] as an expression; a missing key is [None] here and a
    [KeyError] at the use site. *)
Fixpoint get {V} (d : t V) (k : string) : option V :=
  match d with
  | [] => None
  | (k', v) :: d' => if String.eqb k' k then Some v else get d' k
  end.

(** [d[k] = v]: an existing key keeps its position, a new one goes last. *)
Fixpoint set {V} (d : t V) (k : string) (v : V) : t V :=
  match d with
  | [] => [(k, v)]
  | (k', v') :: d' =>
      if String.eqb k' k then (k', v) :: d' else (k', v') :: set d' k v
  end.

End Dict.

(** [l[start:stop]] for integer bounds, step 1. *)
Definition clamp_index (len i : Z) : Z :=
  if i <? 0 then Z.max 0 (i + len) else Z.min i len.

Definition py_slice {A} (l : list A) (start stop : Z) : list A :=
  let len := Z.of_nat (List.length l) in
  let lo := clamp_index len start in
  let hi := clamp_index len stop in
  firstn (Z.to_nat (hi - lo)) (skipn (Z.to_nat lo) l).

(** [sep.join(parts)] *)
Fixpoint join (sep : string) (parts : list string) : string :=
  match parts with
  | [] => ""
  | [p] => p
  | p :: ps => (p ++ sep ++ join sep ps)%string
  end.

Definition nl : string := String (ascii_of_nat 10) "".
Definition dq : string := String (ascii_of_nat 34) "".

(** [str(l)] of a list, given [repr] of its elements. *)
Definition str_list {A} (repr : A -> string) (l : list A) : string :=
  ("[" ++ join ", " (map repr l) ++ "]")%string.

(** Decimal rendering of a counter inside an f-string. *)
Definition str_nat (n : nat) : string :=
  NilEmpty.string_of_uint (Nat.to_uint n).

(** ** Statements that can raise

    [M S A] is a computation over a state [S]: it returns the new state
    together with a value or the exception raised.  Whatever was done to
    the state before a [raise] stays done. *)

Definition M (S A : Type) : Type := S -> S * outcome A.

Definition ret {S A} (a : A) : M S A := fun s => (s, Ok a).

Definition raise {S A} (e : exn) : M S A := fun s => (s, Raise e).

Definition bind {S A B} (m : M S A) (k : A -> M S B) : M S B :=
  fun s =>
    match m s with
    | (s', Ok a) => k a s'
    | (s', Raise e) => (s', Raise e)
    end.

Definition lift {S A} (o : outcome A) : M S A := fun s => (s, o).

Definition gets {S A} (f : S -> A) : M S A := fun s => (s, Ok (f s)).

Definition modify {S} (f : S -> S) : M S unit := fun s => (f s, Ok tt).

(** [try: body / except: handler] with a bare [except]. *)
Definition try_except {S A} (body handler : M S A) : M S A :=
  fun s =>
    match body s with
    | (s', Ok a) => (s', Ok a)
    | (s', Raise _) => handler s'
    end.

Declare Scope py_scope.
Delimit Scope py_scope with py.
Notation "x <- m ;; k" := (bind m (fun x => k))
  (at level 61, m at next level, right associativity) : py_scope.
Notation "m ;; k" := (bind m (fun _ => k))
  (at level 61, right associativity) : py_scope.

(** [for x in xs: body x] *)
Fixpoint for_each {S A} (xs : list A) (body : A -> M S unit) : M S unit :=
  match xs with
  | [] => ret tt
  | x :: xs' => (body x ;; for_each xs' body)%py
  end.

(** [d[k]] on a dict, raising [KeyError] like Python. *)
Definition subscript (d : Dict.t pyval) (k : string) : outcome pyval :=
  match Dict.get d k with
  | Some v => Ok v
  | None => Raise (KeyError k)
  end.

(** [obj[k] = v] on whatever [json.loads] produced: only a dict takes a
    string key, every other value raises [TypeError]. *)
Definition subscript_set (obj : pyval) (k : string) (v : pyval) : outcome pyval :=
  match obj with
  | PyDict d => Ok (PyDict (Dict.set d k v))
  | _ => Raise TypeError
  end.

(** ** Chat-completion requests *)

Inductive role : Type := System | User | Assistant.

Record message : Type := {
  msg_role : role;
  msg_content : string
}.

(** The keyword arguments of a call; [temperature] is only ever [0] or
    [0.0]; [response_schema] holds the fields of the JSON schema passed as
    [response_format], when one is passed. *)
Record request : Type := {
  model : string;
  messages : list message;
  temperature : Z;
  response_schema : option (list string);
  max_tokens : option Z;
  stream : bool
}.

(** A streamed chunk, seen through [chunk.choices[0].delta.content]. *)
Record chunk : Type := {
  delta_content : option string
}.

(** ** Stage 1: the review aggregator *)

Record review_row : Type := {
  asin : string;
  reviewText : string;
  unixReviewTime : Z
}.

Definition dataframe : Type := list review_row.

(** The pandas sort the stage calls,
    [.sort_values(["unixReviewTime"], axis=0, ascending=False)].  pandas'
    default sort kind makes no promise on rows with equal timestamps, so
    the order it gives is left to the library; what it does promise is
    [sort_contract] below. *)
Record Pandas : Type := {
  sort_values_desc : dataframe -> dataframe
}.

(** [df.asin.unique()]: pandas walks the column once with a hash table and
    appends each value it has not seen yet.  The notebook shows this call
    in a text cell only (see [aggregation_cell]). *)
Definition unique (column : list string) : list string :=
  fold_left
    (fun uniques v =>
       if existsb (String.eqb v) uniques then uniques else uniques ++ [v])
    column [].

(** [df.loc[df['asin'] == a]] *)
Definition loc_asin (df : dataframe) (a : string) : dataframe :=
  filter (fun r => String.eqb (asin r) a) df.

(** [df.loc[...].sort_values(...).reviewText.tolist()] *)
Definition product_reviews (pandas : Pandas) (df : dataframe) (a : string)
  : list string :=
  map reviewText (sort_values_desc pandas (loc_asin df a)).

(** The aggregation cell:
<<
    review_dict = {}
    for asin in asin_list[0:product_record_limit]:
        reviews = df.loc[...].sort_values(...).reviewText.tolist()
        review_dict[asin] = reviews
>>
    The cell reads three names from the kernel.  [df] and
    [product_record_limit] are bound by the code cells above it.
    [asin_list] is bound by no code cell: the statement
    [asin_list = df.asin.unique()] stands in a cell of type markdown, which
    is displayed and never run.  So [asin_list] is here what the kernel
    holds under that name, [None] when the name is unbound; evaluating the
    unbound name raises [NameError], after [review_dict = {}] has run and
    before the loop is entered.  The result is [review_dict] and how the
    cell ended. *)
Definition aggregation_cell (pandas : Pandas) (asin_list : option (list string))
           (df : dataframe) (product_record_limit : Z)
  : Dict.t (list string) * outcome unit :=
  let review_dict := Dict.empty in
  match asin_list with
  | None => (review_dict, Raise (NameError "asin_list"))
  | Some asin_list =>
      (fold_left
         (fun review_dict a => Dict.set review_dict a (product_reviews pandas df a))
         (py_slice asin_list 0 product_record_limit)
         review_dict,
       Ok tt)
  end.

(** What the kernel holds under [asin_list] once the notebook's code cells
    have run in order. *)
Definition asin_list_as_shipped : option (list string) := None.

(** Reference notions the aggregator is compared with. *)

(** The distinct values of a column, each at its first occurrence. *)
Fixpoint distinct_in_order (l : list string) : list string :=
  match l with
  | [] => []
  | x :: xs => x :: filter (fun y => negb (String.eqb x y)) (distinct_in_order xs)
  end.

Definition newer_or_same (r1 r2 : review_row) : Prop :=
  unixReviewTime r2 <= unixReviewTime r1.

(** What a descending sort on the timestamp guarantees: the same rows,
    none of them before a newer one. *)
Definition sort_contract (sort : dataframe -> dataframe) : Prop :=
  forall df, Permutation (sort df) df /\ StronglySorted newer_or_same (sort df).

(** ** Stage 2: the summarizer *)

(** The fields of the [ProductRecord] pydantic model, in declaration order. *)
Definition ProductRecord_fields : list string :=
  ["description"; "name"; "review_summary"; "ASIN"; "features"].

(** [template.format(asin = a, reviews = r)] with [r] already rendered. *)
Definition template_format (a reviews : string) : string :=
  join nl
    [ "";
      ("Here are product reviews for a music product with an ID of " ++ a ++ ".")%string;
      " - Respond back only as only JSON!";
      " - Provide:";
      ("     - the product " ++ dq ++ "description" ++ dq ++ ",")%string;
      ("     - the product " ++ dq ++ "name" ++ dq ++ ",")%string;
      ("     - a summary of all the reviews as " ++ dq ++ "review_summary" ++ dq ++ ",")%string;
      ("     - the " ++ dq ++ "ASIN" ++ dq ++ " and")%string;
      ("     - and the product " ++ dq ++ "features" ++ dq
         ++ " based on the content of these reviews. ")%string;
      (" - The " ++ dq ++ "features" ++ dq
         ++ " should be a string describing the features and NOT JSON. ")%string;
      " - Do not include the ASIN in the description field.";
      " ";
      ("The reviews for the product are: " ++ reviews)%string;
      "" ].

(** What the summarisation cell prints. *)
Inductive printed : Type :=
| Progress (counter total : nat) (a : string)
| Response (content : option string)
| Skipping (a : string).

Definition render (p : printed) : string :=
  match p with
  | Progress c t a =>
      ("Getting review summary " ++ str_nat c ++ " of " ++ str_nat t
         ++ ", ASIN: " ++ a)%string
  | Response (Some content) => (nl ++ content ++ nl)%string
  | Response None => (nl ++ "None" ++ nl)%string
  | Skipping a => ("Issue with ASIN " ++ a ++ ", skipping")%string
  end.

Record summarizer_state : Type := {
  review_summaries : list pyval;
  counter : nat;
  stdout : list printed;
  llm_calls : list request
}.

Definition summarizer_init : summarizer_state :=
  {| review_summaries := []; counter := 0%nat; stdout := []; llm_calls := [] |}.

(** ** Stage 3: ingestion and retrieval *)

Definition item : Type := Dict.t pyval.

(** [sales_template.format(question, context)] *)
Definition sales_template_format (question context : string) : string :=
  join nl
    [ "";
      "You are a sales assistant. Answer the user questions as helpfully as possible.";
      "Only recommend the products that are provided in the context provided below.";
      "";
      "Provide a reference to each product you mention with hyperlinks:";
      "* Provide the name of the product";
      "* Embed the hyperlink in the name of the product as follows";
      ("    * If the product name is " ++ dq
         ++ "Solid Electric Guitar Case with Accessories Compartment" ++ dq)%string;
      ("    * And the aSIN is " ++ dq ++ "B001EL6I8W" ++ dq)%string;
      "    * Format the reference as follows: ";
      "         [Solid Electric Guitar Case with Accessories Compartment](https://www.amazon.com/exec/obidos/ASIN/B001EL6I8W)";
      "";
      "Finish with a references section.";
      "";
      ("Customer question: " ++ question)%string;
      "";
      ("Product context: " ++ context)%string;
      "";
      "AI:";
      "" ].

Record chat_state : Type := {
  hybrid_queries : list (string * Z);
  stream_requests : list request;
  yielded : list string
}.

Definition chat_init : chat_state :=
  {| hybrid_queries := []; stream_requests := []; yielded := [] |}.

Definition user_message (c : string) : message :=
  {| msg_role := User; msg_content := c |}.

Definition assistant_message (c : string) : message :=
  {| msg_role := Assistant; msg_content := c |}.

Definition system_message (c : string) : message :=
  {| msg_role := System; msg_content := c |}.

(** ** The hosted services and library calls the notebook relies on *)

(** The OpenAI-compatible [client]. *)
Record Client : Type := {
  (** [client.chat.completions.create(...)] without streaming, read through
      [response.choices[0].message.content]: the answer to the [k]-th call
      made, which may be an exception. *)
  chat_completions_create : nat -> request -> outcome (option string);
  (** The same endpoint with [stream = True]: the chunks it will deliver. *)
  chat_completions_stream : request -> outcome (list chunk)
}.

(** Python library functions whose text output the notebook embeds. *)
Record Builtins : Type := {
  (** [json.loads] *)
  loads : string -> outcome pyval;
  (** [repr] of one review text, as [str] of a list shows its elements. *)
  repr_review : string -> string;
  (** [str] of a result object's property dict. *)
  str_properties : item -> string
}.

(** The vector-store [collection]: [collection.data.insert_many] acts on
    the store and may raise; [collection.query.hybrid] answers with result
    objects, seen through their [properties]. *)
Record Collection : Type := {
  Store : Type;
  insert_many : Store -> list item -> Store * outcome unit;
  hybrid : string -> Z -> outcome (list item)
}.

(** ** Sample data and services

    Concrete inputs and stand-ins for the hosted services, used further
    down to run the cells and to instantiate the results. *)

Definition sample_row (a : string) (t : Z) : review_row :=
  {| asin := a; reviewText := "review at " ++ str_nat (Z.to_nat t);
     unixReviewTime := t |}.

(** Two products, as in the example scenario: "X1" with 3 reviews and
    "X2" with 25, interleaved at the start. *)
Definition sample_df : dataframe :=
  [ sample_row "X1" 30; sample_row "X2" 100; sample_row "X1" 10;
    sample_row "X1" 20 ]
  ++ map (fun t => sample_row "X2" (Z.of_nat t)) (seq 101 24).

Definition sample_record : Dict.t pyval :=
  [ ("description", PyStr "A ten-hole diatonic harmonica");
    ("name", PyStr "Harmonica");
    ("review_summary", PyStr "Good for beginners");
    ("ASIN", PyStr "B0002");
    ("features", PyStr "Key of C, plastic comb") ].

Definition sample_item : item :=
  [ ("ASIN", PyStr "B0002");
    ("name", PyStr "Harmonica");
    ("description", PyStr "A ten-hole diatonic harmonica");
    ("features", PyStr "Key of C, plastic comb");
    ("review_summary", PyStr "Good for beginners") ].

(** A store that keeps what it is given and never refuses. *)
Definition sample_insert_many (s : list item) (b : list item)
  : list item * outcome unit :=
  (s ++ b, Ok tt).

(** A store with room for [capacity] items that refuses what does not fit. *)
Definition capped_insert_many (capacity : nat) (s : nat) (b : list item)
  : nat * outcome unit :=
  if Nat.leb (s + List.length b) capacity
  then ((s + List.length b)%nat, Ok tt)
  else (s, Raise (ServiceError "store is full")).

(** An endpoint whose first call times out, whose second call answers
    with a JSON object and whose later calls answer with prose. *)
Definition sample_create (k : nat) (req : request) : outcome (option string) :=
  match k with
  | 0%nat => Raise (ServiceError "timeout")
  | 1%nat => Ok (Some "{B}")
  | _ => Ok (Some "Sure! Here is the summary")
  end.

Definition sample_loads (s : string) : outcome pyval :=
  if String.eqb s "{B}"
  then Ok (PyDict [("name", PyStr "Harmonica"); ("ASIN", PyStr "made up")])
  else Raise (ValueError "Expecting value").

Definition sample_repr (s : string) : string := ("'" ++ s ++ "'")%string.

Definition sample_str_properties (it : item) : string :=
  match Dict.get it "name" with
  | Some (PyStr n) => ("{'name': '" ++ n ++ "'}")%string
  | _ => "{}"
  end.

Definition sample_hybrid (question : string) (limit : Z)
  : outcome (list item) :=
  Ok (py_slice [sample_item; sample_item] 0 limit).

Definition sample_stream (req : request) : outcome (list chunk) :=
  Ok [ {| delta_content := Some "Try " |};
       {| delta_content := None |};
       {| delta_content := Some "a harmonica" |} ].

Definition sample_client : Client :=
  {| chat_completions_create := sample_create;
     chat_completions_stream := sample_stream |}.

Definition sample_py : Builtins :=
  {| loads := sample_loads;
     repr_review := sample_repr;
     str_properties := sample_str_properties |}.

Definition sample_collection : Collection :=
  {| Store := list item;
     insert_many := sample_insert_many;
     hybrid := sample_hybrid |}.

Definition capped_collection (capacity : nat) : Collection :=
  {| Store := nat;
     insert_many := capped_insert_many capacity;
     hybrid := sample_hybrid |}.

(** Three products for the summarizer; with [sample_client] the calls for
    "A" and "C" fail and the call for "B" succeeds. *)
Definition sample_review_dict : Dict.t (list string) :=
  [ ("A", ["too loud"]); ("B", ["great tone"; "arrived late"]);
    ("C", ["broke in a week"]) ].

(** A record whose ["features"] field is missing. *)
Definition sample_bad_record : Dict.t pyval :=
  [ ("description", PyStr "A clip-on tuner");
    ("name", PyStr "Tuner");
    ("review_summary", PyStr "Accurate");
    ("ASIN", PyStr "B0003") ].

(** A vector store that cannot be reached. *)
Definition offline_collection : Collection :=
  {| Store := unit;
     insert_many := fun s _ => (s, Raise (ServiceError "unreachable"));
     hybrid := fun _ _ => Raise (ServiceError "unreachable") |}.

(** A chat endpoint that refuses every request. *)
Definition offline_client : Client :=
  {| chat_completions_create := fun _ _ => Raise (ServiceError "refused");
     chat_completions_stream := fun _ => Raise (ServiceError "refused") |}.

(** A descending insertion sort, as a stand-in for the pandas sort; rows
    with equal timestamps come out in reverse frame order. *)
Fixpoint insert_desc (r : review_row) (sorted : dataframe) : dataframe :=
  match sorted with
  | [] => [r]
  | r' :: rest =>
      if unixReviewTime r' <? unixReviewTime r
      then r :: r' :: rest
      else r' :: insert_desc r rest
  end.

Definition insertion_sort_desc (df : dataframe) : dataframe :=
  fold_right insert_desc [] df.

Definition sample_pandas : Pandas :=
  {| sort_values_desc := insertion_sort_desc |}.


Section Notebook.

Set Default Proof Using "Type".

Variable client : Client.
Variable py : Builtins.
Variable collection : Collection.

(** *** The summarisation cell *)

Definition print (p : printed) : M summarizer_state unit :=
  modify (fun st =>
    {| review_summaries := review_summaries st; counter := counter st;
       stdout := stdout st ++ [p]; llm_calls := llm_calls st |}).

Definition append_summary (summary : pyval) : M summarizer_state unit :=
  modify (fun st =>
    {| review_summaries := review_summaries st ++ [summary];
       counter := counter st; stdout := stdout st;
       llm_calls := llm_calls st |}).

Definition increment_counter : M summarizer_state unit :=
  modify (fun st =>
    {| review_summaries := review_summaries st;
       counter := S (counter st); stdout := stdout st;
       llm_calls := llm_calls st |}).

Definition summary_request (a : string) (review_list : list string) : request :=
  {| model := "llama-2-70b-chat";
     messages :=
       [ system_message "You are a helpful assistant.";
         user_message
           (template_format a (str_list (repr_review py) (py_slice review_list 0 20))) ];
     temperature := 0;
     response_schema := Some ProductRecord_fields;
     max_tokens := Some 1024;
     stream := false |}.

Definition create (req : request) : M summarizer_state (option string) :=
  fun st =>
    ({| review_summaries := review_summaries st; counter := counter st;
        stdout := stdout st; llm_calls := llm_calls st ++ [req] |},
     chat_completions_create client (List.length (llm_calls st)) req).

(** [loads(response.choices[0].message.content)]; a [None] content is
    not a string and makes [loads] raise. *)
Definition loads_content (content : option string) : outcome pyval :=
  match content with
  | Some s => loads py s
  | None => Raise TypeError
  end.

(** One iteration of [for asin, review_list in review_dict.items()]. *)
Definition summarize_product (total : nat) (kv : string * list string)
  : M summarizer_state unit :=
  let '(a, review_list) := kv in
  (c <- gets counter ;;
   print (Progress c total a) ;;
   try_except
     (content <- create (summary_request a review_list) ;;
      print (Response content) ;;
      summary <- lift (loads_content content) ;;
      summary' <- lift (subscript_set summary "ASIN" (PyStr a)) ;;
      append_summary summary')
     (print (Skipping a)) ;;
   increment_counter)%py.

Definition summarize (review_dict : Dict.t (list string))
  : M summarizer_state unit :=
  for_each review_dict (summarize_product (List.length review_dict)).

(** *** The ingestion cell *)

Record ingest_state : Type := {
  items_to_insert : list item;
  store : Store collection;
  insert_calls : list (list item)
}.

Definition ingest_init (s : Store collection) : ingest_state :=
  {| items_to_insert := []; store := s; insert_calls := [] |}.

(** [d["ASIN"]] and friends, then the dict literal. *)
Definition new_item (d : Dict.t pyval) : outcome item :=
  match subscript d "ASIN" with
  | Raise e => Raise e
  | Ok v_asin =>
  match subscript d "name" with
  | Raise e => Raise e
  | Ok v_name =>
  match subscript d "description" with
  | Raise e => Raise e
  | Ok v_description =>
  match subscript d "features" with
  | Raise e => Raise e
  | Ok v_features =>
  match subscript d "review_summary" with
  | Raise e => Raise e
  | Ok v_review_summary =>
      Ok [ ("ASIN", v_asin); ("name", v_name);
           ("description", v_description); ("features", v_features);
           ("review_summary", v_review_summary) ]
  end end end end end.

Definition append_item (it : item) : M ingest_state unit :=
  modify (fun st =>
    {| items_to_insert := items_to_insert st ++ [it];
       store := store st; insert_calls := insert_calls st |}).

Definition clear_items : M ingest_state unit :=
  modify (fun st =>
    {| items_to_insert := []; store := store st;
       insert_calls := insert_calls st |}).

(** [collection.data.insert_many(items_to_insert)]: the call is logged,
    the store moves on, and the call's outcome is the statement's. *)
Definition call_insert_many : M ingest_state unit :=
  fun st =>
    let '(s', r) := insert_many collection (store st) (items_to_insert st) in
    ({| items_to_insert := items_to_insert st; store := s';
        insert_calls := insert_calls st ++ [items_to_insert st] |}, r).

Definition ingest_record (d : Dict.t pyval) : M ingest_state unit :=
  (it <- lift (new_item d) ;;
   append_item it ;;
   n <- gets (fun st => List.length (items_to_insert st)) ;;
   if Nat.eqb n 100
   then (call_insert_many ;; clear_items)
   else ret tt)%py.

Definition ingest (data_list : list (Dict.t pyval)) : M ingest_state unit :=
  (for_each data_list ingest_record ;;
   n <- gets (fun st => List.length (items_to_insert st)) ;;
   if Nat.ltb 0 n then call_insert_many else ret tt)%py.

(** *** Retrieval and the interactive assistant *)

Definition query_hybrid (question : string) (limit : Z)
  : M chat_state (list item) :=
  fun st =>
    ({| hybrid_queries := hybrid_queries st ++ [(question, limit)];
        stream_requests := stream_requests st; yielded := yielded st |},
     hybrid collection question limit).

Definition get_context (question : string) (limit : Z) : M chat_state string :=
  (objects <- query_hybrid question limit ;;
   ret (join nl (map (str_properties py) objects)))%py.

Definition create_stream (req : request) : M chat_state (list chunk) :=
  fun st =>
    ({| hybrid_queries := hybrid_queries st;
        stream_requests := stream_requests st ++ [req];
        yielded := yielded st |},
     chat_completions_stream client req).

Definition yield (v : string) : M chat_state unit :=
  modify (fun st =>
    {| hybrid_queries := hybrid_queries st;
       stream_requests := stream_requests st;
       yielded := yielded st ++ [v] |}).

(** The first loop of [predict]. *)
Definition history_loop (history : list (string * string)) : list message :=
  fold_left
    (fun history_openai_format turn =>
       let '(human, assistant) := turn in
       (history_openai_format ++ [user_message human])
         ++ [assistant_message assistant])
    history [].

(** The message list [predict] hands to the endpoint. *)
Definition predict_messages (msg : string) (history : list (string * string))
  : M chat_state (list message) :=
  (let history_openai_format := history_loop history in
   context <- get_context msg 5 ;;
   ret (history_openai_format
          ++ [user_message (sales_template_format msg context)]))%py.

(** [for chunk in response: ...] with [partial_message] as loop state. *)
Fixpoint consume (partial_message : string) (response : list chunk)
  : M chat_state unit :=
  match response with
  | [] => ret tt
  | c :: rest =>
      match delta_content c with
      | Some text =>
          let partial_message := (partial_message ++ text)%string in
          (yield partial_message ;; consume partial_message rest)%py
      | None => consume partial_message rest
      end
  end.

Definition predict (msg : string) (history : list (string * string))
  : M chat_state unit :=
  (history_openai_format <- predict_messages msg history ;;
   response <- create_stream
     {| model := "meta-llama-3-70b-instruct";
        messages := history_openai_format;
        temperature := 0;
        response_schema := None;
        max_tokens := None;
        stream := true |} ;;
   consume "" response)%py.

(** *** Reference notions for the summarizer

    These describe a run product by product, without the loop, the
    state or the exception handler; the results below relate the cell to
    them. *)

(** A list with the position of each entry, counted from [k]. *)
Fixpoint enumerate_from {A} (k : nat) (l : list A) : list (nat * A) :=
  match l with
  | [] => []
  | x :: xs => (k, x) :: enumerate_from (S k) xs
  end.

(** The record the product visited as the [k]-th ends up with, when its
    call returns a text, the text parses, and the parse is a JSON object. *)
Definition collected (k : nat) (kv : string * list string) : option pyval :=
  match chat_completions_create client k (summary_request (fst kv) (snd kv)) with
  | Ok (Some content) =>
      match loads py content with
      | Ok (PyDict d) => Some (PyDict (Dict.set d "ASIN" (PyStr (fst kv))))
      | _ => None
      end
  | _ => None
  end.

Definition succeeds (ikv : nat * (string * list string)) : bool :=
  match collected (fst ikv) (snd ikv) with
  | Some _ => true
  | None => false
  end.

(** What the iteration for that product prints. *)
Definition printed_for (total : nat) (ikv : nat * (string * list string))
  : list printed :=
  let '(k, (a, review_list)) := ikv in
  Progress k total a ::
  match chat_completions_create client k (summary_request a review_list) with
  | Raise _ => [Skipping a]
  | Ok content =>
      Response content ::
      (if succeeds ikv then [] else [Skipping a])
  end.

Definition is_skipping (p : printed) : bool :=
  match p with
  | Skipping _ => true
  | _ => false
  end.

(** *** Reference notions for ingestion *)

(** A list cut into consecutive groups of [n]; the last group holds what
    is left and may be shorter. *)
Fixpoint chunks_fuel {A} (fuel n : nat) (l : list A) : list (list A) :=
  match fuel with
  | O => []
  | S fuel' =>
      match l with
      | [] => []
      | _ :: _ => firstn n l :: chunks_fuel fuel' n (skipn n l)
      end
  end.

Definition chunks {A} (n : nat) (l : list A) : list (list A) :=
  chunks_fuel (List.length l) n l.

(** The store after it has accepted every batch of a sequence, if it
    does accept them all. *)
Fixpoint insert_all (s : Store collection) (batches : list (list item))
  : option (Store collection) :=
  match batches with
  | [] => Some s
  | b :: rest =>
      match insert_many collection s b with
      | (s', Ok _) => insert_all s' rest
      | (_, Raise _) => None
      end
  end.

(** Submitting batches one after the other until one is refused: the
    store reached, the calls made, and how it ended. *)
Fixpoint submit (batches : list (list item)) (s : Store collection)
  : Store collection * list (list item) * outcome unit :=
  match batches with
  | [] => (s, [], Ok tt)
  | b :: rest =>
      match insert_many collection s b with
      | (s', Ok _) =>
          let '(s'', made, r) := submit rest s' in (s'', b :: made, r)
      | (s', Raise e) => (s', [b], Raise e)
      end
  end.

(** The loop body once the record has been turned into an item. *)
Definition push_item (it : item) : M ingest_state unit :=
  (append_item it ;;
   n <- gets (fun st => List.length (items_to_insert st)) ;;
   if Nat.eqb n 100
   then (call_insert_many ;; clear_items)
   else ret tt)%py.

(** *** Reference notions for retrieval and streaming *)




(** The texts a stream carries: the non-[None] delta contents, in order. *)
Definition deltas (response : list chunk) : list string :=
  flat_map
    (fun c => match delta_content c with Some text => [text] | None => [] end)
    response.

(** Plain concatenation of a list of texts. *)
Definition cat (texts : list string) : string := fold_right String.append "" texts.

(** One turn of the history in the endpoint's format. *)
Definition turn_messages (turn : string * string) : list message :=
  [user_message (fst turn); assistant_message (snd turn)].

(** The streaming request [predict] makes for a given message list. *)
Definition stream_request (ms : list message) : request :=
  {| model := "meta-llama-3-70b-instruct";
     messages := ms;
     temperature := 0;
     response_schema := None;
     max_tokens := None;
     stream := true |}.

Definition has_content (c : chunk) : bool :=
  match delta_content c with
  | Some _ => true
  | None => false
  end.

(** *** The single-shot assistant

    [sales_assistant] is the non-streaming sibling of [predict]: it makes
    one hybrid query with limit 10 and one chat call, with no history. *)

Record assistant_state : Type := {
  chat : chat_state;
  create_requests : list request
}.

Definition assistant_init : assistant_state :=
  {| chat := chat_init; create_requests := [] |}.

(** Running a retrieval step inside the assistant. *)
Definition in_chat {A} (m : M chat_state A) : M assistant_state A :=
  fun st =>
    let '(c, r) := m (chat st) in
    ({| chat := c; create_requests := create_requests st |}, r).

Definition create_chat (req : request) : M assistant_state (option string) :=
  fun st =>
    ({| chat := chat st; create_requests := create_requests st ++ [req] |},
     chat_completions_create client (List.length (create_requests st)) req).

(** The request of [sales_assistant] for an already formatted prompt. *)
Definition assistant_request (prompt : string) : request :=
  {| model := "meta-llama-3-70b-instruct";
     messages :=
       [ system_message "You are a helpful assistant.";
         user_message prompt ];
     temperature := 0;
     response_schema := None;
     max_tokens := Some 1024;
     stream := false |}.

(** [sales_assistant(question)]: the arguments of the call are built first,
    so [get_context] runs before the endpoint is reached; the value
    returned is [response.choices[0].message.content]. *)
Definition sales_assistant (question : string)
  : M assistant_state (option string) :=
  (context <- in_chat (get_context question 10) ;;
   content <- create_chat
     (assistant_request (sales_template_format question context)) ;;
   ret content)%py.

(** *** Further reference notions *)

Definition is_progress (p : printed) : bool :=
  match p with
  | Progress _ _ _ => true
  | _ => false
  end.

Definition is_response (p : printed) : bool :=
  match p with
  | Response _ => true
  | _ => false
  end.

(** The fields the ingestion cell reads from a record, in the order in
    which the dict literal reads them. *)
Definition item_fields : list string :=
  ["ASIN"; "name"; "description"; "features"; "review_summary"].

(** The text that separates the question from the context in the sales
    prompt. *)
Definition context_separator : string :=
  (nl ++ nl ++ "Product context: ")%string.

(** ** Facts about the Python built-ins *)

Lemma clamp_index_nonneg (len i : Z) :
  0 <= len -> 0 <= i -> clamp_index len i = Z.min i len.
Proof.
  intros _ Hi. unfold clamp_index.
  destruct (Z.ltb_spec i 0); [lia | reflexivity].
Qed.

Lemma py_slice_from_0 {A} (l : list A) (n : Z) :
  0 <= n -> py_slice l 0 n = firstn (Z.to_nat n) l.
Proof.
  intros Hn. unfold py_slice.
  rewrite !clamp_index_nonneg by lia.
  rewrite (Z.min_l 0) by lia. simpl skipn. rewrite Z.sub_0_r.
  destruct (Z.le_ge_cases n (Z.of_nat (List.length l))) as [Hle | Hge].
  - rewrite (Z.min_l n) by lia. reflexivity.
  - rewrite (Z.min_r n) by lia. rewrite Nat2Z.id.
    rewrite firstn_all. symmetry. apply firstn_all2. lia.
Qed.

Lemma filter_filter {A} (f g : A -> bool) (l : list A) :
  filter f (filter g l) = filter (fun x => g x && f x) l.
Proof.
  induction l as [| x l IH]; simpl; [reflexivity |].
  destruct (g x); simpl; [destruct (f x) |]; now rewrite IH.
Qed.

Lemma existsb_eqb_In (x : string) (l : list string) :
  existsb (String.eqb x) l = true <-> In x l.
Proof.
  rewrite existsb_exists. split.
  - intros [y [Hin Heq]]. apply String.eqb_eq in Heq. now subst.
  - intros Hin. exists x. split; [assumption | apply String.eqb_refl].
Qed.

Lemma string_app_assoc (a b c : string) :
  ((a ++ b) ++ c = a ++ (b ++ c))%string.
Proof. induction a as [| x a IH]; simpl; [reflexivity | now rewrite IH]. Qed.

Lemma string_app_nil_r (a : string) : (a ++ "" = a)%string.
Proof. induction a as [| x a IH]; simpl; [reflexivity | now rewrite IH]. Qed.

(** ** The review aggregator *)

Lemma unique_loop_spec (column acc : list string) :
  fold_left
    (fun uniques v =>
       if existsb (String.eqb v) uniques then uniques else uniques ++ [v])
    column acc
  = acc ++ filter (fun y => negb (existsb (String.eqb y) acc))
             (distinct_in_order column).
Proof.
  revert acc. induction column as [| x xs IH]; intros acc; simpl.
  - now rewrite app_nil_r.
  - rewrite filter_filter. destruct (existsb (String.eqb x) acc) eqn:Hx; simpl.
    + rewrite IH. f_equal. apply filter_ext_in. intros y _.
      destruct (String.eqb_spec x y) as [-> | Hne]; simpl; [| reflexivity].
      now rewrite Hx.
    + rewrite IH, <- app_assoc. simpl. do 2 f_equal.
      apply filter_ext_in. intros y _.
      rewrite existsb_app. simpl. rewrite orb_false_r, negb_orb.
      rewrite (String.eqb_sym y x). apply andb_comm.
Qed.

Lemma unique_distinct_in_order (column : list string) :
  unique column = distinct_in_order column.
Proof.
  unfold unique. rewrite unique_loop_spec. simpl.
  clear. induction (distinct_in_order column) as [| y l IH]; simpl; congruence.
Qed.

Lemma distinct_in_order_In (l : list string) (x : string) :
  In x (distinct_in_order l) <-> In x l.
Proof.
  induction l as [| y l IH]; simpl; [tauto |].
  rewrite filter_In, IH, negb_true_iff.
  destruct (String.eqb_spec y x) as [-> | Hne]; intuition congruence.
Qed.

Lemma distinct_in_order_NoDup (l : list string) : NoDup (distinct_in_order l).
Proof.
  induction l as [| y l IH]; simpl; constructor.
  - rewrite filter_In, String.eqb_refl. intros [_ H]. discriminate.
  - now apply NoDup_filter.
Qed.

Lemma distinct_in_order_length (l : list string) :
  List.length (distinct_in_order l) = List.length (nodup string_dec l).
Proof.
  apply Permutation_length, NoDup_Permutation.
  - apply distinct_in_order_NoDup.
  - apply NoDup_nodup.
  - intros x. now rewrite distinct_in_order_In, nodup_In.
Qed.

Lemma NoDup_firstn {A} (n : nat) (l : list A) : NoDup l -> NoDup (firstn n l).
Proof.
  intros H. rewrite <- (firstn_skipn n l) in H.
  now apply NoDup_app_remove_r in H.
Qed.

Lemma NoDup_skipn {A} (n : nat) (l : list A) : NoDup l -> NoDup (skipn n l).
Proof.
  intros H. rewrite <- (firstn_skipn n l) in H.
  now apply NoDup_app_remove_l in H.
Qed.

Lemma py_slice_NoDup {A} (l : list A) (start stop : Z) :
  NoDup l -> NoDup (py_slice l start stop).
Proof. intros H. unfold py_slice. now apply NoDup_firstn, NoDup_skipn. Qed.

Lemma py_slice_incl {A} (l : list A) (start stop : Z) (x : A) :
  In x (py_slice l start stop) -> In x l.
Proof.
  unfold py_slice. intros H.
  set (rest := skipn _ l) in H.
  assert (Hrest : In x rest).
  { rewrite <- (firstn_skipn (Z.to_nat (clamp_index (Z.of_nat (List.length l)) stop
                                   - clamp_index (Z.of_nat (List.length l)) start)) rest).
    apply in_or_app. now left. }
  unfold rest in Hrest.
  rewrite <- (firstn_skipn (Z.to_nat (clamp_index (Z.of_nat (List.length l)) start)) l).
  apply in_or_app. now right.
Qed.

Lemma Dict_set_fresh {V} (d : Dict.t V) (k : string) (v : V) :
  ~ In k (Dict.keys d) -> Dict.set d k v = d ++ [(k, v)].
Proof.
  induction d as [| [k' v'] d IH]; simpl; intros Hk; [reflexivity |].
  destruct (String.eqb_spec k' k) as [-> | Hne]; [tauto |].
  rewrite IH by tauto. reflexivity.
Qed.

Lemma Dict_get_set_same {V} (d : Dict.t V) (k : string) (v : V) :
  Dict.get (Dict.set d k v) k = Some v.
Proof.
  induction d as [| [k' v'] d IH]; simpl.
  - now rewrite String.eqb_refl.
  - destruct (String.eqb k' k) eqn:E; simpl; now rewrite E.
Qed.

Lemma Dict_get_app {V} (d1 d2 : Dict.t V) (k : string) :
  Dict.get (d1 ++ d2) k =
  match Dict.get d1 k with Some v => Some v | None => Dict.get d2 k end.
Proof.
  induction d1 as [| [k' v'] d1 IH]; simpl; [reflexivity |].
  now destruct (String.eqb k' k).
Qed.

Lemma Dict_get_tabulate {V} (f : string -> V) (ks : list string) (k : string) :
  Dict.get (map (fun a => (a, f a)) ks) k =
  if existsb (String.eqb k) ks then Some (f k) else None.
Proof.
  induction ks as [| a ks IH]; simpl; [reflexivity |].
  rewrite (String.eqb_sym k a).
  destruct (String.eqb_spec a k) as [-> | Hne]; simpl; [reflexivity | exact IH].
Qed.

(** Assigning distinct fresh keys in a loop appends them in loop order. *)
Lemma assign_loop_spec {V} (f : string -> V) (ks : list string) (d : Dict.t V) :
  NoDup (Dict.keys d ++ ks) ->
  fold_left (fun acc a => Dict.set acc a (f a)) ks d
  = d ++ map (fun a => (a, f a)) ks.
Proof.
  revert d. induction ks as [| a ks IH]; intros d Hnd; simpl.
  - now rewrite app_nil_r.
  - assert (Hfresh : ~ In a (Dict.keys d)).
    { apply NoDup_remove_2 in Hnd. intros Hin. apply Hnd.
      apply in_or_app. now left. }
    rewrite Dict_set_fresh by assumption.
    rewrite IH.
    + now rewrite <- app_assoc.
    + unfold Dict.keys in *. rewrite map_app. simpl.
      now rewrite <- app_assoc.
Qed.

Lemma insert_desc_perm (r : review_row) (l : dataframe) :
  Permutation (insert_desc r l) (r :: l).
Proof.
  induction l as [| r' l IH]; simpl; [reflexivity |].
  destruct (unixReviewTime r' <? unixReviewTime r); [reflexivity |].
  rewrite IH. apply perm_swap.
Qed.

Lemma insert_desc_sorted (r : review_row) (l : dataframe) :
  StronglySorted newer_or_same l ->
  StronglySorted newer_or_same (insert_desc r l).
Proof.
  induction 1 as [| r' l Hs IH Hall]; simpl.
  - repeat constructor.
  - destruct (Z.ltb_spec (unixReviewTime r') (unixReviewTime r)) as [Hlt | Hge].
    + constructor; [now constructor |].
      constructor; [unfold newer_or_same; lia |].
      eapply Forall_impl; [| exact Hall].
      unfold newer_or_same. intros; lia.
    + constructor; [assumption |].
      eapply Permutation_Forall; [symmetry; apply insert_desc_perm |].
      constructor; [exact Hge | exact Hall].
Qed.

(** The stand-in sort keeps what the pandas sort promises. *)
Lemma insertion_sort_contract : sort_contract insertion_sort_desc.
Proof.
  intros df. split.
  - induction df as [| r df IH]; simpl; [constructor |].
    rewrite insert_desc_perm. now constructor.
  - induction df as [| r df IH]; simpl; [constructor |].
    now apply insert_desc_sorted.
Qed.

Lemma Dict_set_Forall {V} (P : string * V -> Prop) (d : Dict.t V)
      (k : string) (v : V) :
  Forall P d -> P (k, v) -> Forall P (Dict.set d k v).
Proof.
  intros Hd Hkv. induction Hd as [| [k' v'] d Hk' Hd IH]; simpl.
  - now constructor.
  - destruct (String.eqb_spec k' k) as [-> | Hne]; constructor; assumption.
Qed.

Lemma assign_loop_Forall {V} (P : string * V -> Prop) (f : string -> V)
      (ks : list string) :
  (forall a, P (a, f a)) ->
  forall d, Forall P d ->
    Forall P (fold_left (fun acc a => Dict.set acc a (f a)) ks d).
Proof.
  intros Hf. induction ks as [| a ks IH]; intros d Hd; simpl; [exact Hd |].
  apply IH. now apply Dict_set_Forall.
Qed.

(** The cell when [asin_list] holds a list without repetition. *)
Lemma aggregation_cell_bound (pandas : Pandas) (asin_list : list string)
      (df : dataframe) (L : Z) :
  NoDup asin_list ->
  aggregation_cell pandas (Some asin_list) df L
  = (map (fun a => (a, product_reviews pandas df a)) (py_slice asin_list 0 L),
     Ok tt).
Proof.
  intros Hnd. unfold aggregation_cell. f_equal.
  rewrite assign_loop_spec; [reflexivity |].
  simpl. now apply py_slice_NoDup.
Qed.

(** C3, on the notebook as shipped.  The aggregation cell reads
    [asin_list], a name no code cell binds: whatever the dataset and the
    limit, the cell raises [NameError] and leaves [review_dict] empty.  For
    a dataset with at least one review and a limit of at least one the
    mapping so has no key, where the contract asks for
    [min L (number of distinct identifiers)] of them. *)
Theorem aggregation_cell_as_shipped (pandas : Pandas) (df : dataframe) (L : nat) :
  let run := aggregation_cell pandas asin_list_as_shipped df (Z.of_nat L) in
  snd run = Raise (NameError "asin_list")
  /\ fst run = Dict.empty
  /\ (df <> [] -> (0 < L)%nat ->
      List.length (Dict.keys (fst run))
      <> Nat.min L (List.length (nodup string_dec (map asin df)))).
Proof.
  intros run. subst run. cbn [aggregation_cell asin_list_as_shipped fst snd].
  split; [reflexivity |]. split; [reflexivity |].
  intros Hdf HL. rewrite <- distinct_in_order_length.
  destruct df as [| r df]; [congruence |]. simpl. lia.
Qed.

(** What the cell does once [asin_list] holds the value of the statement
    shown in the text cell: the contract of the aggregator.  The keys are
    the first [L] distinct identifiers in dataset order, so
    [min L (number of distinct identifiers)] of them; each is mapped to the
    review texts of that product's rows, in an order descending in the
    timestamp. *)
Lemma aggregation_contract_when_bound (pandas : Pandas) (df : dataframe)
      (L : nat) :
  sort_contract (sort_values_desc pandas) ->
  let run :=
    aggregation_cell pandas (Some (unique (map asin df))) df (Z.of_nat L) in
  snd run = Ok tt
  /\ Dict.keys (fst run) = firstn L (distinct_in_order (map asin df))
  /\ List.length (Dict.keys (fst run))
     = Nat.min L (List.length (nodup string_dec (map asin df)))
  /\ (forall a, In a (Dict.keys (fst run)) ->
        exists rows,
          Dict.get (fst run) a = Some (map reviewText rows)
          /\ Permutation rows (filter (fun r => String.eqb (asin r) a) df)
          /\ StronglySorted newer_or_same rows).
Proof.
  intros Hsort run. subst run.
  rewrite aggregation_cell_bound
    by (rewrite unique_distinct_in_order; apply distinct_in_order_NoDup).
  rewrite unique_distinct_in_order, py_slice_from_0, Nat2Z.id by lia.
  cbn [fst snd].
  set (ks := firstn L (distinct_in_order (map asin df))).
  assert (Hkeys : Dict.keys (map (fun a => (a, product_reviews pandas df a)) ks)
                  = ks).
  { unfold Dict.keys. rewrite map_map. simpl. apply map_id. }
  rewrite Hkeys.
  split; [reflexivity |]. split; [reflexivity |].
  split; [unfold ks; now rewrite length_firstn, distinct_in_order_length |].
  intros a Ha.
  exists (sort_values_desc pandas (loc_asin df a)).
  destruct (Hsort (loc_asin df a)) as [Hperm Hsorted].
  repeat split; try assumption.
  rewrite Dict_get_tabulate.
  apply existsb_eqb_In in Ha. now rewrite Ha.
Qed.

Lemma Dict_set_keys_In {V} (d : Dict.t V) (k k0 : string) (v : V) :
  In k0 (Dict.keys (Dict.set d k v)) <-> In k0 (Dict.keys d) \/ k0 = k.
Proof.
  induction d as [| [k' v'] d IH]; simpl.
  - intuition congruence.
  - destruct (String.eqb_spec k' k) as [-> | Hne]; simpl.
    + intuition congruence.
    + rewrite IH. tauto.
Qed.

Lemma assign_loop_keys_In {V} (f : string -> V) (ks : list string) (k0 : string) :
  forall d,
    In k0 (Dict.keys (fold_left (fun acc a => Dict.set acc a (f a)) ks d))
    <-> In k0 (Dict.keys d) \/ In k0 ks.
Proof.
  induction ks as [| a ks IH]; intros d; simpl; [tauto |].
  rewrite IH, Dict_set_keys_In. intuition congruence.
Qed.

(** C8, as the code has it.  The aggregation loop makes no cut: whatever
    [asin_list] holds, every sequence the cell stores under a product
    identifier is that product's whole group, the review texts of all the
    dataset's rows with that identifier and of no other row, in an order
    descending in the timestamp; its length is the number of these rows,
    whatever that number is.  And when [asin_list] is bound, a group is
    stored for exactly the identifiers of [asin_list[0:limit]]. *)
Theorem aggregation_stores_whole_groups (pandas : Pandas)
        (asin_list : option (list string)) (df : dataframe) (limit : Z) :
  sort_contract (sort_values_desc pandas) ->
  Forall
    (fun entry =>
       exists rows,
         snd entry = map reviewText rows
         /\ Permutation rows
              (filter (fun r => String.eqb (asin r) (fst entry)) df)
         /\ StronglySorted newer_or_same rows
         /\ List.length (snd entry)
            = List.length
                (filter (fun r => String.eqb (asin r) (fst entry)) df))
    (fst (aggregation_cell pandas asin_list df limit))
  /\ (forall bound, asin_list = Some bound ->
      snd (aggregation_cell pandas asin_list df limit) = Ok tt
      /\ forall a,
           In a (Dict.keys (fst (aggregation_cell pandas asin_list df limit)))
           <-> In a (py_slice bound 0 limit)).
Proof.
  intros Hsort. split.
  - destruct asin_list as [l |]; [| constructor].
    cbn [aggregation_cell fst].
    apply assign_loop_Forall; [| constructor].
    intros a. exists (sort_values_desc pandas (loc_asin df a)).
    destruct (Hsort (loc_asin df a)) as [Hperm Hsorted]. cbn [fst snd].
    repeat split; try assumption.
    unfold product_reviews. rewrite length_map.
    now apply Permutation_length.
  - intros bound ->. cbn [aggregation_cell fst snd].
    split; [reflexivity |]. intros a.
    rewrite assign_loop_keys_In. simpl. tauto.
Qed.

(** ** The summarizer *)

Lemma for_each_ext {S A} (body body' : A -> M S unit) (xs : list A) :
  (forall x, In x xs -> body x = body' x) ->
  for_each xs body = for_each xs body'.
Proof.
  induction xs as [| x xs IH]; simpl; intros H; [reflexivity |].
  rewrite (H x) by now left.
  rewrite IH; [reflexivity |]. intros y Hy. apply H. now right.
Qed.

(** One iteration, whatever the services answer: it returns normally,
    advances the counter, issues one request and appends at most one
    record. *)
Lemma summarize_product_spec (total : nat) (kv : string * list string)
      (st : summarizer_state) :
  counter st = List.length (llm_calls st) ->
  summarize_product total kv st =
  ({| review_summaries :=
        review_summaries st ++
        match collected (counter st) kv with Some r => [r] | None => [] end;
      counter := S (counter st);
      stdout := stdout st ++ printed_for total (counter st, kv);
      llm_calls := llm_calls st ++ [summary_request (fst kv) (snd kv)] |},
   Ok tt).
Proof.
  intros Hinv. destruct kv as [a review_list].
  unfold summarize_product, printed_for, succeeds, collected.
  unfold bind, gets, print, try_except, create, modify, lift, append_summary,
    increment_counter, loads_content. simpl.
  rewrite <- Hinv.
  destruct (chat_completions_create client (counter st) (summary_request a review_list))
    as [[content |] | e]; simpl.
  - destruct (loads py content) as [[] | e]; simpl;
      rewrite <- ?app_assoc, ?app_nil_r; reflexivity.
  - rewrite <- ?app_assoc, ?app_nil_r; reflexivity.
  - rewrite <- ?app_assoc, ?app_nil_r; reflexivity.
Qed.

Lemma summarize_loop_spec (total : nat) (items : Dict.t (list string))
      (st : summarizer_state) :
  counter st = List.length (llm_calls st) ->
  for_each items (summarize_product total) st =
  ({| review_summaries :=
        review_summaries st ++
        flat_map
          (fun ikv =>
             match collected (fst ikv) (snd ikv) with
             | Some r => [r]
             | None => []
             end)
          (enumerate_from (counter st) items);
      counter := (counter st + List.length items)%nat;
      stdout :=
        stdout st ++ flat_map (printed_for total) (enumerate_from (counter st) items);
      llm_calls :=
        llm_calls st ++ map (fun kv => summary_request (fst kv) (snd kv)) items |},
   Ok tt).
Proof.
  revert st. induction items as [| kv items IH]; intros st Hinv.
  - simpl. unfold ret. rewrite !app_nil_r, Nat.add_0_r.
    now destruct st.
  - simpl for_each. unfold bind at 1.
    rewrite summarize_product_spec by assumption.
    rewrite IH.
    + simpl. rewrite <- !app_assoc. simpl.
      now rewrite Nat.add_succ_r.
    + simpl. rewrite length_app. simpl. lia.
Qed.

Lemma flat_map_option_Forall2 {A B} (f : A -> option B) (xs : list A) :
  Forall2 (fun r x => f x = Some r)
    (flat_map (fun x => match f x with Some r => [r] | None => [] end) xs)
    (filter (fun x => match f x with Some _ => true | None => false end) xs).
Proof.
  induction xs as [| x xs IH]; simpl; [constructor |].
  destruct (f x) as [r |] eqn:E; simpl; [constructor |]; assumption.
Qed.

Lemma printed_for_skipping (total : nat) (ikv : nat * (string * list string)) :
  filter is_skipping (printed_for total ikv)
  = if succeeds ikv then [] else [Skipping (fst (snd ikv))].
Proof.
  destruct ikv as [k [a review_list]]. unfold printed_for. simpl.
  destruct (succeeds (k, (a, review_list))) eqn:Hs;
    unfold succeeds, collected in Hs; simpl in Hs;
    destruct (chat_completions_create client k (summary_request a review_list))
      as [content | e]; simpl; try reflexivity; discriminate.
Qed.

Lemma skipping_lines (total : nat) (xs : list (nat * (string * list string))) :
  filter is_skipping (flat_map (printed_for total) xs)
  = map (fun ikv => Skipping (fst (snd ikv)))
      (filter (fun ikv => negb (succeeds ikv)) xs).
Proof.
  induction xs as [| x xs IH]; simpl; [reflexivity |].
  rewrite filter_app, printed_for_skipping, IH.
  now destruct (succeeds x).
Qed.

(** C1.  Whatever subset of the products has its call or its parse raise
    (or has a parse that is not a JSON object, so that storing the ASIN
    raises), the summarisation loop returns normally after visiting every
    product of the mapping (one request per product, in the mapping's order);
    each failing product is reported by a skip line and contributes
    nothing; and the collected sequence holds exactly the records of the
    products that succeeded, in the mapping's iteration order. *)
Theorem summarizer_failure_isolation (review_dict : Dict.t (list string)) :
  let run := summarize review_dict summarizer_init in
  let products := enumerate_from 0 review_dict in
  snd run = Ok tt
  /\ counter (fst run) = List.length review_dict
  /\ llm_calls (fst run)
     = map (fun kv => summary_request (fst kv) (snd kv)) review_dict
  /\ Forall2 (fun r ikv => collected (fst ikv) (snd ikv) = Some r)
       (review_summaries (fst run)) (filter succeeds products)
  /\ filter is_skipping (stdout (fst run))
     = map (fun ikv => Skipping (fst (snd ikv)))
         (filter (fun ikv => negb (succeeds ikv)) products).
Proof.
  intros run products. subst run products. unfold summarize.
  rewrite summarize_loop_spec by reflexivity. simpl.
  repeat split.
  - apply (flat_map_option_Forall2 (fun ikv => collected (fst ikv) (snd ikv))).
  - apply skipping_lines.
Qed.

(** C9.  Every record the loop collects is a JSON object whose ["ASIN"]
    entry is the identifier of the product it was produced for: the
    assignment [summary["ASIN"] = asin] replaces whatever the model
    answered under that key, or adds the key when the answer had none. *)
Theorem collected_record_has_loop_asin (review_dict : Dict.t (list string)) :
  Forall2
    (fun r ikv =>
       exists d, r = PyDict d
                 /\ Dict.get d "ASIN" = Some (PyStr (fst (snd ikv))))
    (review_summaries (fst (summarize review_dict summarizer_init)))
    (filter succeeds (enumerate_from 0 review_dict)).
Proof.
  unfold summarize. rewrite summarize_loop_spec by reflexivity. simpl.
  eapply Forall2_impl;
    [| apply (flat_map_option_Forall2 (fun ikv => collected (fst ikv) (snd ikv)))].
  intros r [k [a review_list]] Hc. unfold collected in Hc. simpl in *.
  destruct (chat_completions_create client k (summary_request a review_list))
    as [[content |] | e]; try discriminate.
  destruct (loads py content) as [[] | e]; try discriminate.
  inversion Hc; subst. eexists. split; [reflexivity |].
  apply Dict_get_set_same.
Qed.

Lemma review_slice_first_20 (review_list : list string) :
  py_slice review_list 0 20 = firstn 20 review_list.
Proof. apply (py_slice_from_0 review_list (n := 20)). lia. Qed.

Lemma summary_request_first_20 (a : string) (review_list : list string) :
  summary_request a (firstn 20 review_list) = summary_request a review_list.
Proof.
  unfold summary_request.
  now rewrite !review_slice_first_20, firstn_firstn.
Qed.

Lemma summarize_product_first_20 (total : nat) (a : string)
      (review_list : list string) :
  summarize_product total (a, firstn 20 review_list)
  = summarize_product total (a, review_list).
Proof.
  unfold summarize_product. now rewrite summary_request_first_20.
Qed.

Lemma for_each_map {S A B} (g : A -> B) (body : B -> M S unit) (xs : list A) :
  for_each (map g xs) body = for_each xs (fun x => body (g x)).
Proof.
  induction xs as [| x xs IH]; simpl; [reflexivity | now rewrite IH].
Qed.

Lemma sorted_prefix_dominates (n : nat) (rows : dataframe) :
  StronglySorted newer_or_same rows ->
  forall kept dropped,
    In kept (firstn n rows) -> In dropped (skipn n rows) ->
    newer_or_same kept dropped.
Proof.
  intros Hs. revert n.
  induction Hs as [| r rows Hs IH Hall]; intros n kept dropped Hk Hd.
  - rewrite firstn_nil in Hk. contradiction.
  - destruct n as [| n]; simpl in *; [contradiction |].
    destruct Hk as [<- | Hk].
    + rewrite Forall_forall in Hall. apply Hall.
      rewrite <- (firstn_skipn n rows). apply in_or_app. now right.
    + now apply (IH n).
Qed.

(** C4.  For every product the loop visits, the user message sent to the
    model is the prompt text with the product identifier and, after "The
    reviews for the product are: ", the first 20 entries of the product's
    review sequence and nothing after them: cutting every sequence to its
    first 20 entries beforehand changes nothing in the run.  When the
    sequence is sorted by recency these 20 are the most recent reviews: no
    review left out is newer than one that is kept. *)
Theorem summarizer_forwards_first_20 (review_dict : Dict.t (list string)) :
  map (fun req => messages req)
      (llm_calls (fst (summarize review_dict summarizer_init)))
  = map (fun kv =>
           [ {| msg_role := System;
                msg_content := "You are a helpful assistant." |};
             {| msg_role := User;
                msg_content :=
                  (nl ++ "Here are product reviews for a music product with an ID of "
                   ++ fst kv ++ "." ++ nl
                   ++ " - Respond back only as only JSON!" ++ nl
                   ++ " - Provide:" ++ nl
                   ++ "     - the product " ++ dq ++ "description" ++ dq ++ "," ++ nl
                   ++ "     - the product " ++ dq ++ "name" ++ dq ++ "," ++ nl
                   ++ "     - a summary of all the reviews as "
                   ++ dq ++ "review_summary" ++ dq ++ "," ++ nl
                   ++ "     - the " ++ dq ++ "ASIN" ++ dq ++ " and" ++ nl
                   ++ "     - and the product " ++ dq ++ "features" ++ dq
                   ++ " based on the content of these reviews. " ++ nl
                   ++ " - The " ++ dq ++ "features" ++ dq
                   ++ " should be a string describing the features and NOT JSON. " ++ nl
                   ++ " - Do not include the ASIN in the description field." ++ nl
                   ++ " " ++ nl
                   ++ "The reviews for the product are: "
                   ++ "[" ++ join ", " (map (repr_review py) (firstn 20 (snd kv)))
                   ++ "]" ++ nl)%string |} ])
        review_dict
  /\ summarize review_dict summarizer_init
     = summarize (map (fun kv => (fst kv, firstn 20 (snd kv))) review_dict)
         summarizer_init
  /\ (forall rows : dataframe,
        StronglySorted newer_or_same rows ->
        firstn 20 (map reviewText rows) = map reviewText (firstn 20 rows)
        /\ forall kept dropped,
             In kept (firstn 20 rows) -> In dropped (skipn 20 rows) ->
             newer_or_same kept dropped).
Proof.
  split; [| split].
  - unfold summarize. rewrite summarize_loop_spec by reflexivity.
    cbn [fst llm_calls summarizer_init app].
    rewrite map_map. apply map_ext. intros [a review_list].
    cbn [fst snd]. unfold summary_request. cbn [messages].
    rewrite review_slice_first_20.
    unfold system_message, user_message, template_format, str_list, nl, dq.
    cbn [join String.append]. rewrite !string_app_assoc. reflexivity.
  - unfold summarize. rewrite length_map, for_each_map.
    apply (f_equal (fun m => m summarizer_init)), for_each_ext.
    intros [a review_list] _. symmetry. apply summarize_product_first_20.
  - intros rows Hsorted. split; [apply firstn_map |].
    now apply sorted_prefix_dominates.
Qed.

(** ** Ingestion *)

Lemma for_each_app {S A} (body : A -> M S unit) (xs ys : list A) (st : S) :
  for_each (xs ++ ys) body st
  = bind (for_each xs body) (fun _ => for_each ys body) st.
Proof.
  revert st. induction xs as [| x xs IH]; intros st; simpl.
  - reflexivity.
  - unfold bind.
    destruct (body x st) as [st' [[] | e]]; [| reflexivity].
    rewrite IH. reflexivity.
Qed.

Lemma ingest_records_as_items (data_list : list (Dict.t pyval))
      (items : list item) (st : ingest_state) :
  Forall2 (fun d it => new_item d = Ok it) data_list items ->
  for_each data_list ingest_record st = for_each items push_item st.
Proof.
  intros H. revert st. induction H as [| d it ds its Hd _ IH]; intros st.
  - reflexivity.
  - simpl. unfold bind at 1 2.
    assert (Hstep : ingest_record d st = push_item it st).
    { unfold ingest_record, push_item. unfold bind at 1, lift.
      now rewrite Hd. }
    rewrite Hstep.
    destruct (push_item it st) as [st' [[] | e]]; [apply IH | reflexivity].
Qed.

(** Fewer than 100 pending items: the loop only appends. *)
Lemma push_below_100 (xs : list item) (st : ingest_state) :
  (List.length (items_to_insert st) + List.length xs < 100)%nat ->
  for_each xs push_item st
  = ({| items_to_insert := items_to_insert st ++ xs;
        store := store st; insert_calls := insert_calls st |}, Ok tt).
Proof.
  revert st. induction xs as [| x xs IH]; intros st Hlen; simpl.
  - unfold ret. rewrite app_nil_r. now destruct st.
  - simpl in Hlen. unfold bind at 1.
    unfold push_item at 1. unfold bind, append_item, modify, gets. simpl.
    rewrite length_app. simpl.
    destruct (Nat.eqb_spec (List.length (items_to_insert st) + 1) 100);
      [lia |].
    unfold ret. rewrite IH.
    + simpl. now rewrite <- app_assoc.
    + simpl. rewrite length_app. simpl. lia.
Qed.

(** The item that brings the pending list to 100 triggers one call. *)
Lemma push_hundredth (x : item) (st : ingest_state) :
  List.length (items_to_insert st) = 99%nat ->
  push_item x st
  = match insert_many collection (store st) (items_to_insert st ++ [x]) with
    | (s', Ok _) =>
        ({| items_to_insert := []; store := s';
            insert_calls := insert_calls st ++ [items_to_insert st ++ [x]] |},
         Ok tt)
    | (s', Raise e) =>
        ({| items_to_insert := items_to_insert st ++ [x]; store := s';
            insert_calls := insert_calls st ++ [items_to_insert st ++ [x]] |},
         Raise e)
    end.
Proof.
  intros Hlen.
  unfold push_item, bind, append_item, modify, gets. simpl.
  rewrite length_app, Hlen. simpl.
  unfold call_insert_many, clear_items, modify. simpl.
  destruct (insert_many collection (store st) (items_to_insert st ++ [x]))
    as [s' [[] | e]]; reflexivity.
Qed.

Lemma for_each_single {S A} (body : A -> M S unit) (x : A) (st : S) :
  for_each [x] body st = body x st.
Proof.
  simpl. unfold bind, ret.
  destruct (body x st) as [st' [[] | e]]; reflexivity.
Qed.

(** Items that fill the pending list up to exactly 100 end in one call. *)
Lemma push_batch (xs : list item) (st : ingest_state) :
  xs <> [] ->
  (List.length (items_to_insert st) + List.length xs = 100)%nat ->
  for_each xs push_item st
  = match insert_many collection (store st) (items_to_insert st ++ xs) with
    | (s', Ok _) =>
        ({| items_to_insert := []; store := s';
            insert_calls := insert_calls st ++ [items_to_insert st ++ xs] |},
         Ok tt)
    | (s', Raise e) =>
        ({| items_to_insert := items_to_insert st ++ xs; store := s';
            insert_calls := insert_calls st ++ [items_to_insert st ++ xs] |},
         Raise e)
    end.
Proof.
  intros Hne Hlen.
  destruct (exists_last Hne) as [xs' [x ->]].
  rewrite length_app in Hlen. simpl in Hlen.
  rewrite for_each_app. unfold bind.
  rewrite push_below_100 by lia.
  rewrite for_each_single, push_hundredth; simpl.
  - now rewrite <- app_assoc.
  - rewrite length_app. lia.
Qed.

Lemma chunks_fuel_step {A} (fuel n : nat) (l : list A) :
  l <> [] ->
  chunks_fuel (S fuel) n l = firstn n l :: chunks_fuel fuel n (skipn n l).
Proof. destruct l; [congruence | reflexivity]. Qed.

Lemma chunks_fuel_nil {A} (fuel n : nat) : chunks_fuel fuel n (@nil A) = [].
Proof. destruct fuel; reflexivity. Qed.

Lemma submit_cons (b : list item) (rest : list (list item)) (s : Store collection) :
  submit (b :: rest) s
  = match insert_many collection s b with
    | (s', Ok _) =>
        let '(s'', made, r) := submit rest s' in (s'', b :: made, r)
    | (s', Raise e) => (s', [b], Raise e)
    end.
Proof. reflexivity. Qed.

(** The [for] loop of the ingestion cell, started with nothing pending:
    it submits the full groups of 100 one after the other, stops at the
    first refusal, and otherwise leaves the incomplete last group pending. *)
Lemma push_loop_spec (fuel : nat) :
  forall (xs : list item) (st : ingest_state) s' made r,
    (List.length xs <= fuel)%nat ->
    items_to_insert st = [] ->
    submit (firstn (List.length xs / 100) (chunks_fuel fuel 100 xs)) (store st)
      = (s', made, r) ->
    let res := for_each xs push_item st in
    store (fst res) = s'
    /\ insert_calls (fst res) = insert_calls st ++ made
    /\ snd res = r
    /\ (r = Ok tt ->
        items_to_insert (fst res) = skipn (100 * (List.length xs / 100)) xs).
Proof.
  induction fuel as [| fuel IH]; intros xs st s' made r Hfuel Hempty Hsub res.
  - destruct xs; [| simpl in Hfuel; lia].
    simpl in Hsub. inversion Hsub; subst. subst res. simpl.
    rewrite app_nil_r. auto.
  - destruct (Nat.lt_ge_cases (List.length xs) 100) as [Hlt | Hge].
    + rewrite Nat.div_small in Hsub by assumption.
      simpl in Hsub. inversion Hsub; subst. subst res.
      rewrite push_below_100 by (rewrite Hempty; simpl; lia).
      rewrite Nat.div_small by assumption. simpl.
      rewrite Hempty, app_nil_r. auto.
    + assert (Hne : xs <> []) by (intros ->; simpl in Hge; lia).
      rewrite chunks_fuel_step in Hsub by assumption.
      assert (Hb : List.length (firstn 100 xs) = 100%nat)
        by (rewrite length_firstn; lia).
      assert (Hsplit := firstn_skipn 100 xs).
      remember (firstn 100 xs) as b eqn:Eb.
      remember (skipn 100 xs) as rest eqn:Erest.
      clear Eb Erest Hne. subst xs.
      rewrite length_app, Hb in *.
      assert (Hdiv : ((100 + List.length rest) / 100
                      = S (List.length rest / 100))%nat) by lia.
      rewrite Hdiv, firstn_cons, submit_cons in Hsub.
      subst res. rewrite for_each_app. unfold bind.
      rewrite push_batch;
        [| intros ->; discriminate | rewrite Hempty, Hb; reflexivity].
      rewrite Hempty. cbn [app].
      destruct (insert_many collection (store st) b) as [s1 [[] | e]].
      * destruct (submit (firstn (List.length rest / 100)
                            (chunks_fuel fuel 100 rest)) s1)
          as [[s2 made2] r2] eqn:Hrest.
        injection Hsub as <- <- <-.
        pose proof (IH rest
                      {| items_to_insert := []; store := s1;
                         insert_calls := insert_calls st ++ [b] |}
                      s2 made2 r2) as Hind.
        cbv zeta in Hind. cbn [store items_to_insert insert_calls] in Hind.
        destruct Hind as [H1 [H2 [H3 H4]]];
          [lia | reflexivity | exact Hrest |].
        repeat split; try assumption.
        -- rewrite H2, <- app_assoc. reflexivity.
        -- intros Hr. rewrite (H4 Hr), Hdiv.
           rewrite skipn_app, Hb.
           rewrite (skipn_all2 b) by lia. cbn [app].
           f_equal. lia.
      * injection Hsub as <- <- <-. cbn [fst snd store insert_calls].
        repeat split. discriminate.
Qed.

Lemma chunks_fuel_unfold {A} (fuel : nat) (xs : list A) :
  xs <> [] ->
  exists b rest,
    xs = b ++ rest
    /\ (0 < List.length b <= 100)%nat
    /\ (List.length rest = 0 \/ List.length b = 100)%nat
    /\ chunks_fuel (S fuel) 100 xs = b :: chunks_fuel fuel 100 rest.
Proof.
  intros Hne. exists (firstn 100 xs), (skipn 100 xs).
  assert (0 < List.length xs)%nat by (destruct xs; [congruence | simpl; lia]).
  split; [| split; [| split]].
  - symmetry. apply firstn_skipn.
  - rewrite length_firstn. lia.
  - rewrite length_firstn, length_skipn. lia.
  - now apply chunks_fuel_step.
Qed.

Lemma chunks_fuel_count {A} (fuel : nat) (xs : list A) :
  (List.length xs <= fuel)%nat ->
  List.length (chunks_fuel fuel 100 xs) = ((List.length xs + 99) / 100)%nat.
Proof.
  revert xs. induction fuel as [| fuel IH]; intros xs Hfuel.
  - destruct xs; [reflexivity | simpl in Hfuel; lia].
  - destruct xs as [| x xs']; [reflexivity |].
    destruct (chunks_fuel_unfold fuel (xs := x :: xs')) as [b [rest [Hs [Hb [Hfull ->]]]]];
      [discriminate |].
    rewrite Hs, length_app in *. cbn [List.length].
    rewrite IH by lia. lia.
Qed.

Lemma chunks_fuel_sizes {A} (fuel : nat) (xs : list A) :
  Forall (fun b => (List.length b <= 100)%nat) (chunks_fuel fuel 100 xs).
Proof.
  revert xs. induction fuel as [| fuel IH]; intros xs; [constructor |].
  destruct xs as [| x xs']; [constructor |].
  destruct (chunks_fuel_unfold fuel (xs := x :: xs')) as [b [rest [Hs [Hb [Hfull ->]]]]];
    [discriminate |].
  constructor; [lia | apply IH].
Qed.

Lemma chunks_fuel_concat {A} (fuel : nat) (xs : list A) :
  (List.length xs <= fuel)%nat ->
  List.concat (chunks_fuel fuel 100 xs) = xs.
Proof.
  revert xs. induction fuel as [| fuel IH]; intros xs Hfuel.
  - destruct xs; [reflexivity | simpl in Hfuel; lia].
  - destruct xs as [| x xs']; [reflexivity |].
    destruct (chunks_fuel_unfold fuel (xs := x :: xs')) as [b [rest [Hs [Hb [Hfull ->]]]]];
      [discriminate |].
    rewrite Hs in *. rewrite length_app in *. cbn [List.concat].
    rewrite IH by lia. reflexivity.
Qed.

(** The groups are the full ones, then the remainder if there is one. *)
Lemma chunks_fuel_split {A} (fuel : nat) (xs : list A) :
  (List.length xs <= fuel)%nat ->
  let full := firstn (List.length xs / 100) (chunks_fuel fuel 100 xs) in
  let remainder := skipn (100 * (List.length xs / 100)) xs in
  Forall (fun b => List.length b = 100%nat) full
  /\ List.length remainder = (List.length xs mod 100)%nat
  /\ chunks_fuel fuel 100 xs
     = full ++ (if Nat.eqb (List.length xs mod 100) 0 then [] else [remainder]).
Proof.
  revert xs. induction fuel as [| fuel IH]; intros xs Hfuel full remainder.
  - destruct xs; [| simpl in Hfuel; lia].
    subst full remainder. simpl. repeat split. constructor.
  - subst full remainder. split; [| split].
    + destruct xs as [| x xs']; [constructor |].
      destruct (chunks_fuel_unfold fuel (xs := x :: xs'))
        as [b [rest [Hs [Hb [Hfull ->]]]]]; [discriminate |].
      rewrite Hs, length_app in *.
      destruct (Nat.lt_ge_cases (List.length b + List.length rest) 100).
      * rewrite Nat.div_small by assumption. constructor.
      * replace ((List.length b + List.length rest) / 100)%nat
          with (S (List.length rest / 100)) by lia.
        rewrite firstn_cons. constructor; [lia |].
        apply IH. lia.
    + rewrite length_skipn. lia.
    + destruct xs as [| x xs']; [reflexivity |].
      destruct (chunks_fuel_unfold fuel (xs := x :: xs'))
        as [b [rest [Hs [Hb [Hfull ->]]]]]; [discriminate |].
      rewrite Hs, length_app in *.
      destruct (IH rest) as [_ [_ Hrest]]; [lia |].
      destruct (Nat.lt_ge_cases (List.length b + List.length rest) 100).
      * assert (List.length rest = 0%nat) by lia.
        destruct rest; [| discriminate].
        rewrite Nat.div_small by assumption.
        rewrite chunks_fuel_nil, app_nil_r in *. cbn [firstn app].
        rewrite Nat.mod_small by assumption.
        cbn [List.length]. rewrite Nat.add_0_r, Nat.mul_0_r.
        destruct (Nat.eqb_spec (List.length b) 0); [lia |].
        reflexivity.
      * assert (Hlb : List.length b = 100%nat) by lia.
        replace ((List.length b + List.length rest) / 100)%nat
          with (S (List.length rest / 100)) by lia.
        rewrite firstn_cons. cbn [app]. f_equal.
        replace ((List.length b + List.length rest) mod 100)%nat
          with (List.length rest mod 100)%nat by lia.
        rewrite Hrest at 1. do 2 f_equal.
        destruct (Nat.eqb (List.length rest mod 100) 0); [reflexivity |].
        f_equal. rewrite skipn_app, (skipn_all2 b) by lia. cbn [app].
        f_equal. lia.
Qed.

Lemma submit_app (bs1 bs2 : list (list item)) (s : Store collection) :
  submit (bs1 ++ bs2) s
  = match submit bs1 s with
    | (s1, made1, Ok _) =>
        let '(s2, made2, r) := submit bs2 s1 in (s2, made1 ++ made2, r)
    | (s1, made1, Raise e) => (s1, made1, Raise e)
    end.
Proof.
  revert s. induction bs1 as [| b bs1 IH]; intros s.
  - simpl. now destruct (submit bs2 s) as [[s2 made2] r].
  - cbn [app]. rewrite !submit_cons.
    destruct (insert_many collection s b) as [s' [[] | e]]; [| reflexivity].
    rewrite IH.
    destruct (submit bs1 s') as [[s1 made1] [[] | e]]; [| reflexivity].
    now destruct (submit bs2 s1) as [[s2 made2] r].
Qed.

(** The whole ingestion cell is the submission, in order and up to the
    first refusal, of the items cut into groups of 100. *)
Lemma ingest_spec (data_list : list (Dict.t pyval)) (items : list item)
      (s s' : Store collection) (made : list (list item)) (r : outcome unit) :
  Forall2 (fun d it => new_item d = Ok it) data_list items ->
  submit (chunks 100 items) s = (s', made, r) ->
  let res := ingest data_list (ingest_init s) in
  store (fst res) = s' /\ insert_calls (fst res) = made /\ snd res = r.
Proof.
  intros Hitems Hsub res. subst res. unfold ingest, bind, gets.
  rewrite (ingest_records_as_items _ Hitems).
  unfold chunks in Hsub.
  destruct (chunks_fuel_split (fuel := List.length items) items (le_n _))
    as [_ [Hrem Hsplit]].
  rewrite Hsplit, submit_app in Hsub.
  destruct (submit (firstn (List.length items / 100)
                      (chunks_fuel (List.length items) 100 items)) s)
    as [[s1 made1] r1] eqn:Hfull.
  destruct (push_loop_spec (fuel := List.length items) items (ingest_init s)
              (le_n _) eq_refl Hfull) as [H1 [H2 [H3 H4]]].
  destruct (for_each items push_item (ingest_init s)) as [st1 o1].
  cbn [fst snd ingest_init insert_calls app] in *. subst o1.
  destruct r1 as [[] | e].
  - specialize (H4 eq_refl).
    rewrite H4, Hrem.
    destruct (Nat.eqb_spec (List.length items mod 100) 0) as [Hz | Hnz].
    + rewrite Hz. cbn [Nat.ltb Nat.leb]. unfold ret.
      simpl in Hsub. injection Hsub as <- <- <-.
      cbn [fst snd]. rewrite app_nil_r. auto.
    + destruct (Nat.ltb_spec 0 (List.length items mod 100)); [| lia].
      unfold call_insert_many. rewrite H1, H2, H4.
      rewrite submit_cons in Hsub.
      destruct (insert_many collection s1 (skipn (100 * (List.length items / 100)) items))
        as [s2 [[] | e]]; cbn [submit] in Hsub;
        injection Hsub as <- <- <-; cbn [fst snd store insert_calls]; auto.
  - injection Hsub as <- <- <-. auto.
Qed.

Lemma submit_all_accepted (batches : list (list item)) (s : Store collection) :
  (forall st b, snd (insert_many collection st b) = Ok tt) ->
  snd (submit batches s) = Ok tt /\ snd (fst (submit batches s)) = batches.
Proof.
  intros Hok. revert s. induction batches as [| b bs IH]; intros s.
  - auto.
  - rewrite submit_cons. specialize (Hok s b).
    destruct (insert_many collection s b) as [s' o]. simpl in Hok. subst o.
    specialize (IH s'). destruct (submit bs s') as [[s2 made] r].
    simpl in *. destruct IH as [-> ->]. auto.
Qed.

Lemma submit_first_refusal (batches : list (list item)) (s : Store collection) :
  forall (i : nat) (b : list item) (s_i s' : Store collection) (e : exn),
    nth_error batches i = Some b ->
    insert_all s (firstn i batches) = Some s_i ->
    insert_many collection s_i b = (s', Raise e) ->
    submit batches s = (s', firstn i batches ++ [b], Raise e).
Proof.
  revert s. induction batches as [| b0 bs IH]; intros s i b s_i s' e Hnth Hall Hfail.
  - destruct i; discriminate.
  - destruct i as [| i]; simpl in Hnth, Hall.
    + injection Hnth as ->. injection Hall as ->.
      rewrite submit_cons, Hfail. reflexivity.
    + rewrite submit_cons.
      destruct (insert_many collection s b0) as [s1 [[] | e0]]; [| discriminate].
      rewrite (IH s1 i b s_i s' e Hnth Hall Hfail). reflexivity.
Qed.

Lemma last_of_full_groups {A} (groups : list (list A)) :
  groups <> [] ->
  Forall (fun b => List.length b = 100%nat) groups ->
  List.length (last groups []) = 100%nat.
Proof.
  intros Hne Hall. destruct (exists_last Hne) as [front [b ->]].
  rewrite last_last. apply Forall_app in Hall as [_ Hb].
  now inversion Hb.
Qed.

(** C2.  When the [N] records fed to the ingestion loop are product
    records (each has the five fields) and the store accepts every batch,
    the cell finishes normally after [ceil(N / 100)] calls of
    [insert_many]; no call carries more than 100 items; the last call
    carries [N mod 100] items, or 100 when [N] is a positive multiple of
    100; the calls taken together carry every item once, in order; the
    [for] loop itself only makes calls of exactly 100 items, and the
    remainder, when there is one, goes out in one further call made after
    the loop. *)
Theorem ingestion_batching (data_list : list (Dict.t pyval))
        (items : list item) (s : Store collection) :
  Forall2 (fun d it => new_item d = Ok it) data_list items ->
  (forall st b, snd (insert_many collection st b) = Ok tt) ->
  let N := List.length data_list in
  let loop := for_each data_list ingest_record (ingest_init s) in
  let run := ingest data_list (ingest_init s) in
  let calls := insert_calls (fst run) in
  snd run = Ok tt
  /\ List.length calls = ((N + 99) / 100)%nat
  /\ Forall (fun b => (List.length b <= 100)%nat) calls
  /\ ((0 < N)%nat ->
      List.length (last calls [])
      = if Nat.eqb (N mod 100) 0 then 100%nat else (N mod 100)%nat)
  /\ List.concat calls = items
  /\ Forall (fun b => List.length b = 100%nat) (insert_calls (fst loop))
  /\ calls
     = insert_calls (fst loop)
       ++ (if Nat.eqb (N mod 100) 0 then []
           else [skipn (100 * (N / 100)) items]).
Proof.
  intros Hitems Haccept N loop run calls.
  assert (HN : N = List.length items) by (apply (Forall2_length Hitems)).
  destruct (submit (chunks 100 items) s) as [[s' made] r] eqn:Hsub.
  destruct (ingest_spec _ Hitems Hsub) as [_ [Hcalls Hr]].
  destruct (submit_all_accepted (chunks 100 items) s Haccept) as [Hok Hmade].
  rewrite Hsub in Hok, Hmade. simpl in Hok, Hmade.
  rewrite Hok in Hr. rewrite Hmade in Hcalls. clear Hok Hmade Hsub.
  fold run in Hcalls, Hr. fold calls in Hcalls.
  destruct (chunks_fuel_split (fuel := List.length items) items (le_n _))
    as [Hfull [Hrem Hsplit]].
  fold (chunks 100 items) in Hfull, Hsplit.
  assert (Hloop : insert_calls (fst loop)
                  = firstn (List.length items / 100) (chunks 100 items)).
  { subst loop. rewrite (ingest_records_as_items _ Hitems).
    destruct (submit (firstn (List.length items / 100) (chunks 100 items)) s)
      as [[s1 made1] r1] eqn:Hsub1.
    destruct (submit_all_accepted
                (firstn (List.length items / 100) (chunks 100 items)) s Haccept)
      as [_ Hmade1].
    rewrite Hsub1 in Hmade1. simpl in Hmade1. subst made1.
    destruct (push_loop_spec (fuel := List.length items) items (ingest_init s)
                (le_n _) eq_refl Hsub1) as [_ [H2 _]].
    exact H2. }
  rewrite Hloop, Hcalls, HN.
  split; [exact Hr |].
  split; [apply chunks_fuel_count; lia |].
  split; [apply chunks_fuel_sizes |].
  split; [| split; [apply chunks_fuel_concat; lia |
                    split; [exact Hfull | exact Hsplit]]].
  intros Hpos. rewrite Hsplit.
  destruct (Nat.eqb_spec (List.length items mod 100) 0) as [Hz | Hnz].
  - rewrite app_nil_r. apply last_of_full_groups; [| exact Hfull].
    intros Hnil. apply (f_equal (@List.length (list item))) in Hnil.
    rewrite length_firstn in Hnil. unfold chunks in Hnil.
    rewrite chunks_fuel_count in Hnil by lia. cbn [List.length] in Hnil. lia.
  - rewrite last_last. exact Hrem.
Qed.

(** C7.  When the call of [insert_many] for some group is the first one
    the store refuses, the ingestion cell ends with that very exception:
    nothing catches it.  The calls made are the groups before it and the
    refused one, so none of the groups after it is submitted; and the
    store is left as the accepted calls and the refused call put it,
    what was inserted before the failure stays inserted. *)
Theorem ingestion_failure_propagates (data_list : list (Dict.t pyval))
        (items : list item) (s : Store collection)
        (i : nat) (b : list item) (s_i s' : Store collection) (e : exn) :
  Forall2 (fun d it => new_item d = Ok it) data_list items ->
  nth_error (chunks 100 items) i = Some b ->
  insert_all s (firstn i (chunks 100 items)) = Some s_i ->
  insert_many collection s_i b = (s', Raise e) ->
  let run := ingest data_list (ingest_init s) in
  snd run = Raise e
  /\ insert_calls (fst run) = firstn i (chunks 100 items) ++ [b]
  /\ List.length (insert_calls (fst run)) = S i
  /\ store (fst run) = s'.
Proof.
  intros Hitems Hnth Hbefore Hfail run.
  pose proof (submit_first_refusal _ _ _ Hnth Hbefore Hfail) as Hsub.
  destruct (ingest_spec _ Hitems Hsub) as [Hstore [Hcalls Hr]].
  fold run in Hstore, Hcalls, Hr.
  repeat split; try assumption.
  rewrite Hcalls, length_app, length_firstn. simpl.
  assert (i < List.length (chunks 100 items))%nat
    by (apply nth_error_Some; congruence).
  lia.
Qed.

(** ** Retrieval *)



Lemma prefix_app (a b : string) : String.prefix a (a ++ b) = true.
Proof.
  induction a as [| x a IH]; simpl.
  - now destruct b.
  - destruct (ascii_dec x x); [exact IH | congruence].
Qed.








(** ** The interactive assistant *)

Lemma history_loop_from (history : list (string * string)) (acc : list message) :
  fold_left
    (fun history_openai_format turn =>
       let '(human, assistant) := turn in
       (history_openai_format ++ [user_message human])
         ++ [assistant_message assistant])
    history acc
  = acc ++ flat_map turn_messages history.
Proof.
  revert acc.
  induction history as [| [human assistant] history IH]; intros acc; simpl.
  - now rewrite app_nil_r.
  - rewrite IH, <- !app_assoc. reflexivity.
Qed.

Lemma history_loop_spec (history : list (string * string)) :
  history_loop history = flat_map turn_messages history.
Proof. apply history_loop_from. Qed.

Lemma cat_app (l1 l2 : list string) : cat (l1 ++ l2) = (cat l1 ++ cat l2)%string.
Proof.
  induction l1 as [| t l1 IH]; simpl; [reflexivity |].
  fold (cat (l1 ++ l2)). fold (cat l1). now rewrite IH, string_app_assoc.
Qed.

Lemma firstn_snoc {A} (l : list A) (k : nat) :
  (k < List.length l)%nat -> exists d, firstn (S k) l = firstn k l ++ [d].
Proof.
  revert k. induction l as [| t ts IH]; intros k Hk; [simpl in Hk; lia |].
  destruct k as [| k].
  - now exists t.
  - destruct (IH k) as [d Hd]; [simpl in Hk; lia |].
    exists d. rewrite firstn_cons, Hd. reflexivity.
Qed.

Lemma flat_map_turns_length (history : list (string * string)) :
  List.length (flat_map turn_messages history) = (2 * List.length history)%nat.
Proof.
  induction history as [| turn history IH]; simpl; [reflexivity |].
  rewrite IH. lia.
Qed.

Lemma flat_map_turns_nth (history : list (string * string)) (k : nat)
      (human assistant : string) (tail : list message) :
  nth_error history k = Some (human, assistant) ->
  nth_error (flat_map turn_messages history ++ tail) (2 * k)
    = Some (user_message human)
  /\ nth_error (flat_map turn_messages history ++ tail) (2 * k + 1)
     = Some (assistant_message assistant).
Proof.
  revert k. induction history as [| turn history IH]; intros k Hk.
  - destruct k; discriminate.
  - destruct k as [| k].
    + injection Hk as ->. simpl. auto.
    + replace (2 * S k)%nat with (S (S (2 * k))) by lia.
      replace (S (S (2 * k)) + 1)%nat with (S (S (2 * k + 1))) by lia.
      simpl in Hk. cbn [flat_map turn_messages app nth_error].
      now apply IH.
Qed.

Lemma consume_spec (response : list chunk) :
  forall (partial_message : string) (st : chat_state),
    consume partial_message response st
    = ({| hybrid_queries := hybrid_queries st;
          stream_requests := stream_requests st;
          yielded :=
            yielded st
            ++ map (fun k => (partial_message
                              ++ cat (firstn k (deltas response)))%string)
                 (seq 1 (List.length (deltas response))) |},
       Ok tt).
Proof.
  induction response as [| c rest IH]; intros p st.
  - simpl. unfold ret. rewrite app_nil_r. now destruct st.
  - cbn [consume]. unfold deltas in *. cbn [flat_map].
    destruct (delta_content c) as [text |].
    + unfold bind, yield, modify. rewrite IH. cbn [app List.length].
      cbn [hybrid_queries stream_requests yielded].
      rewrite <- app_assoc. cbn [seq map app firstn cat fold_right].
      rewrite <- (seq_shift _ 1), map_map. do 4 f_equal.
      * now rewrite string_app_nil_r.
      * apply map_ext. intros k. cbn [firstn cat fold_right].
        now rewrite string_app_assoc.
    + apply IH.
Qed.

(** C6.  With a history of [n] turn pairs and a new message (the hybrid
    query having answered), the message list [predict] builds and sends
    has [2 n + 1] entries: the [k]-th pair of the history gives entries
    [2 k] and [2 k + 1], a user message whose content is the pair's user
    text and an assistant message whose content is its assistant text,
    each unchanged; the last entry is one user message whose content is
    the sales prompt with the new question after "Customer question: " and
    the context after "Product context: ".  Nothing of the history is
    dropped or rewritten. *)
Theorem predict_forwards_history (msg : string)
        (history : list (string * string)) (st : chat_state)
        (objects : list item) :
  hybrid collection msg 5 = Ok objects ->
  let n := List.length history in
  let context := join nl (map (str_properties py) objects) in
  let prompt :=
    (nl ++ "You are a sales assistant. Answer the user questions as helpfully as possible."
     ++ nl
     ++ "Only recommend the products that are provided in the context provided below."
     ++ nl ++ nl
     ++ "Provide a reference to each product you mention with hyperlinks:" ++ nl
     ++ "* Provide the name of the product" ++ nl
     ++ "* Embed the hyperlink in the name of the product as follows" ++ nl
     ++ "    * If the product name is " ++ dq
     ++ "Solid Electric Guitar Case with Accessories Compartment" ++ dq ++ nl
     ++ "    * And the aSIN is " ++ dq ++ "B001EL6I8W" ++ dq ++ nl
     ++ "    * Format the reference as follows: " ++ nl
     ++ "         [Solid Electric Guitar Case with Accessories Compartment](https://www.amazon.com/exec/obidos/ASIN/B001EL6I8W)"
     ++ nl ++ nl
     ++ "Finish with a references section." ++ nl ++ nl
     ++ "Customer question: " ++ msg ++ nl ++ nl
     ++ "Product context: " ++ context ++ nl ++ nl
     ++ "AI:" ++ nl)%string in
  let sent :=
    flat_map
      (fun turn =>
         [ {| msg_role := User; msg_content := fst turn |};
           {| msg_role := Assistant; msg_content := snd turn |} ])
      history
    ++ [ {| msg_role := User; msg_content := prompt |} ] in
  snd (predict_messages msg history st) = Ok sent
  /\ List.length sent = (2 * n + 1)%nat
  /\ (forall k human assistant,
        nth_error history k = Some (human, assistant) ->
        nth_error sent (2 * k)
        = Some {| msg_role := User; msg_content := human |}
        /\ nth_error sent (2 * k + 1)
           = Some {| msg_role := Assistant; msg_content := assistant |})
  /\ nth_error sent (2 * n)
     = Some {| msg_role := User; msg_content := prompt |}
  /\ stream_requests (fst (predict msg history st))
     = stream_requests st
       ++ [ {| model := "meta-llama-3-70b-instruct";
               messages := sent;
               temperature := 0;
               response_schema := None;
               max_tokens := None;
               stream := true |} ].
Proof.
  intros Hq n context prompt sent.
  assert (Hprompt : sales_template_format msg context = prompt).
  { subst prompt. unfold sales_template_format, nl, dq.
    cbn [join String.append]. reflexivity. }
  assert (Hsent : flat_map turn_messages history
                  ++ [user_message (sales_template_format msg context)]
                  = sent).
  { subst sent. rewrite Hprompt. reflexivity. }
  assert (Hmsgs : predict_messages msg history st
                  = ({| hybrid_queries := hybrid_queries st ++ [(msg, 5)];
                        stream_requests := stream_requests st;
                        yielded := yielded st |}, Ok sent)).
  { unfold predict_messages, get_context, bind, query_hybrid, ret.
    rewrite Hq, history_loop_spec. fold context. now rewrite Hsent. }
  split; [now rewrite Hmsgs |].
  split; [rewrite <- Hsent, length_app, flat_map_turns_length; simpl; lia |].
  split.
  { intros k human assistant Hk. rewrite <- Hsent.
    exact (flat_map_turns_nth history k _ Hk). }
  split.
  - rewrite <- Hsent, nth_error_app2;
      rewrite flat_map_turns_length; [| subst n; lia].
    subst n. rewrite Nat.sub_diag. cbn [nth_error]. now rewrite Hprompt.
  - unfold predict. unfold bind at 1. rewrite Hmsgs.
    unfold bind, create_stream. cbn [stream_requests hybrid_queries yielded].
    destruct (chat_completions_stream client _) as [response | e];
      [| reflexivity].
    now rewrite consume_spec.
Qed.

(** The whole of [predict] when the query and the endpoint both answer. *)
Lemma predict_spec (msg : string) (history : list (string * string))
      (st : chat_state) (objects : list item) (response : list chunk) :
  let sent :=
    flat_map turn_messages history
    ++ [user_message
          (sales_template_format msg
             (join nl (map (str_properties py) objects)))] in
  hybrid collection msg 5 = Ok objects ->
  chat_completions_stream client (stream_request sent) = Ok response ->
  predict msg history st
  = ({| hybrid_queries := hybrid_queries st ++ [(msg, 5)];
        stream_requests := stream_requests st ++ [stream_request sent];
        yielded :=
          yielded st
          ++ map (fun k => cat (firstn k (deltas response)))
               (seq 1 (List.length (deltas response))) |},
     Ok tt).
Proof.
  intros sent Hq Hs.
  unfold predict, predict_messages, get_context, bind, query_hybrid, ret,
    create_stream.
  rewrite Hq, history_loop_spec. cbn [stream_requests hybrid_queries yielded].
  fold sent. fold (stream_request sent). rewrite Hs, consume_spec.
  reflexivity.
Qed.

(** C10.  Consuming a finite stream of chunks never raises and yields one
    value for each chunk whose delta content is not [None], none for the
    others; the [k]-th value yielded is the concatenation of the first
    [k] non-[None] contents; so each value yielded has the one yielded
    before it as a prefix.  These are the values [predict] yields when the
    endpoint delivers that stream. *)
Theorem predict_streaming_prefixes (response : list chunk) (st : chat_state) :
  let run := consume "" response st in
  let texts := deltas response in
  let ys := map (fun k => cat (firstn k texts)) (seq 1 (List.length texts)) in
  snd run = Ok tt
  /\ yielded (fst run) = yielded st ++ ys
  /\ List.length ys = List.length (filter has_content response)
  /\ (forall k, (k < List.length ys)%nat ->
        nth k ys "" = cat (firstn (S k) texts))
  /\ (forall k, (S k < List.length ys)%nat ->
        String.prefix (nth k ys "") (nth (S k) ys "") = true)
  /\ (forall msg history objects,
        hybrid collection msg 5 = Ok objects ->
        chat_completions_stream client
          (stream_request
             (flat_map turn_messages history
              ++ [user_message
                    (sales_template_format msg
                       (join nl (map (str_properties py) objects)))]))
        = Ok response ->
        snd (predict msg history st) = Ok tt
        /\ yielded (fst (predict msg history st)) = yielded st ++ ys).
Proof.
  intros run texts ys. subst run. rewrite consume_spec. cbn [fst snd yielded].
  fold texts. cbn [String.append]. fold ys.
  assert (Hlen : List.length ys = List.length texts)
    by (subst ys; now rewrite length_map, length_seq).
  assert (Hnth : forall k, (k < List.length ys)%nat ->
                   nth k ys "" = cat (firstn (S k) texts)).
  { intros k Hk. subst ys.
    rewrite (nth_indep _ "" (cat (firstn 0 texts))) by assumption.
    rewrite (map_nth (fun k => cat (firstn k texts))).
    rewrite seq_nth by lia. reflexivity. }
  split; [reflexivity |]. split; [reflexivity |].
  split; [| split; [exact Hnth | split]].
  - rewrite Hlen. subst texts. unfold deltas, has_content.
    clear. induction response as [| c rest IH]; [reflexivity |].
    simpl. destruct (delta_content c); simpl; now rewrite IH.
  - intros k Hk. rewrite !Hnth by lia.
    destruct (firstn_snoc texts (k := S k)) as [d ->]; [lia |].
    rewrite cat_app. apply prefix_app.
  - intros msg history objects Hq Hs.
    rewrite (predict_spec msg history st Hq Hs). split; reflexivity.
Qed.

(** ** More on the summarizer *)

Lemma enumerate_from_length {A} (l : list A) (k : nat) :
  List.length (enumerate_from k l) = List.length l.
Proof.
  revert k. induction l as [| x l IH]; intros k; simpl; [reflexivity |].
  now rewrite IH.
Qed.

Lemma printed_for_progress (total : nat) (ikv : nat * (string * list string)) :
  filter is_progress (printed_for total ikv)
  = [Progress (fst ikv) total (fst (snd ikv))].
Proof.
  destruct ikv as [k [a review_list]]. unfold printed_for. simpl.
  destruct (chat_completions_create client k (summary_request a review_list));
    simpl; [| reflexivity].
  now destruct (succeeds (k, (a, review_list))).
Qed.

Lemma printed_for_response (total : nat) (ikv : nat * (string * list string)) :
  filter is_response (printed_for total ikv)
  = match chat_completions_create client (fst ikv)
            (summary_request (fst (snd ikv)) (snd (snd ikv))) with
    | Ok content => [Response content]
    | Raise _ => []
    end.
Proof.
  destruct ikv as [k [a review_list]]. unfold printed_for. simpl.
  destruct (chat_completions_create client k (summary_request a review_list));
    simpl; [| reflexivity].
  now destruct (succeeds (k, (a, review_list))).
Qed.

Lemma Dict_get_set_other {V} (d : Dict.t V) (k k' : string) (v : V) :
  k' <> k -> Dict.get (Dict.set d k v) k' = Dict.get d k'.
Proof.
  intros Hne. induction d as [| [k0 v0] d IH]; simpl.
  - destruct (String.eqb_spec k k'); [congruence | reflexivity].
  - destruct (String.eqb_spec k0 k) as [-> | Hk0]; simpl.
    + destruct (String.eqb_spec k k'); [congruence | reflexivity].
    + destruct (String.eqb k0 k'); [reflexivity | exact IH].
Qed.

Lemma Dict_keys_set {V} (d : Dict.t V) (k : string) (v : V) :
  Dict.keys (Dict.set d k v)
  = if existsb (String.eqb k) (Dict.keys d)
    then Dict.keys d else Dict.keys d ++ [k].
Proof.
  induction d as [| [k0 v0] d IH]; simpl; [reflexivity |].
  rewrite (String.eqb_sym k k0).
  destruct (String.eqb k0 k); simpl; [reflexivity |].
  rewrite IH. now destruct (existsb (String.eqb k) (Dict.keys d)).
Qed.

(** X4.  The summarisation loop loses no product silently: the number of
    records collected plus the number of skip lines printed is the number
    of products in the mapping. *)
Theorem summarizer_accounts_for_every_product
        (review_dict : Dict.t (list string)) :
  let final := fst (summarize review_dict summarizer_init) in
  (List.length (review_summaries final)
   + List.length (filter is_skipping (stdout final))
   = List.length review_dict)%nat.
Proof.
  intros final. subst final. unfold summarize.
  rewrite summarize_loop_spec by reflexivity. simpl.
  rewrite skipping_lines, length_map.
  rewrite (Forall2_length
             (flat_map_option_Forall2
                (fun ikv => collected (fst ikv) (snd ikv))
                (enumerate_from 0 review_dict))).
  fold succeeds.
  change (fun x => match collected (fst x) (snd x) with
                   | Some _ => true
                   | None => false
                   end) with succeeds.
  now rewrite filter_length, enumerate_from_length.
Qed.

(** X5.  What the loop prints besides the skip lines: one progress line
    per product, numbered from 0 in iteration order and each showing the
    size of the mapping; and the content of every call that returned,
    echoed before it is parsed, so also for products that are then
    skipped and also when the content is [None]. *)
Theorem summarizer_prints_progress_and_responses
        (review_dict : Dict.t (list string)) :
  let final := fst (summarize review_dict summarizer_init) in
  let n := List.length review_dict in
  filter is_progress (stdout final)
  = map (fun ikv => Progress (fst ikv) n (fst (snd ikv)))
      (enumerate_from 0 review_dict)
  /\ filter is_response (stdout final)
     = flat_map
         (fun ikv =>
            match chat_completions_create client (fst ikv)
                    (summary_request (fst (snd ikv)) (snd (snd ikv))) with
            | Ok content => [Response content]
            | Raise _ => []
            end)
         (enumerate_from 0 review_dict).
Proof.
  intros final n. subst final n. unfold summarize.
  rewrite summarize_loop_spec by reflexivity. simpl.
  generalize (List.length review_dict) as total.
  generalize (enumerate_from 0 review_dict) as xs. intros xs total.
  split; induction xs as [| x xs IH]; simpl; try reflexivity.
  - now rewrite filter_app, printed_for_progress, IH.
  - now rewrite filter_app, printed_for_response, IH.
Qed.

(** X6.  A collected record is the parsed JSON object with only its ASIN
    touched: every other key keeps the value the model gave, the keys keep
    their order, ["ASIN"] is added at the end when the model left it out,
    and no field is checked against the [ProductRecord] schema. *)
Theorem collected_record_keeps_other_fields
        (review_dict : Dict.t (list string)) :
  Forall2
    (fun r ikv =>
       exists content d d',
         chat_completions_create client (fst ikv)
           (summary_request (fst (snd ikv)) (snd (snd ikv)))
         = Ok (Some content)
         /\ loads py content = Ok (PyDict d)
         /\ r = PyDict d'
         /\ (forall k, k <> "ASIN" -> Dict.get d' k = Dict.get d k)
         /\ Dict.keys d'
            = if existsb (String.eqb "ASIN") (Dict.keys d)
              then Dict.keys d else Dict.keys d ++ ["ASIN"])
    (review_summaries (fst (summarize review_dict summarizer_init)))
    (filter succeeds (enumerate_from 0 review_dict)).
Proof.
  unfold summarize. rewrite summarize_loop_spec by reflexivity. simpl.
  eapply Forall2_impl;
    [| apply (flat_map_option_Forall2 (fun ikv => collected (fst ikv) (snd ikv)))].
  intros r [k [a review_list]] Hc. unfold collected in Hc. simpl in *.
  destruct (chat_completions_create client k (summary_request a review_list))
    as [[content |] | e]; try discriminate.
  destruct (loads py content) as [[] | e] eqn:Hl; try discriminate.
  inversion Hc; subst. exists content, d, (Dict.set d "ASIN" (PyStr a)).
  repeat split; try assumption.
  - intros k' Hk'. now apply Dict_get_set_other.
  - apply Dict_keys_set.
Qed.

(** ** More on ingestion *)

(** X7.  The item built from a record has exactly the five fields the cell
    reads, in the order of the dict literal; each holds the value the
    record has under that key; whatever else the record carries is left
    out. *)
Theorem new_item_projection (d : Dict.t pyval) (it : item) :
  new_item d = Ok it ->
  Dict.keys it = item_fields
  /\ (forall k, In k item_fields -> Dict.get it k = Dict.get d k)
  /\ (forall k, ~ In k item_fields -> Dict.get it k = None).
Proof.
  unfold new_item, subscript. intros H.
  destruct (Dict.get d "ASIN") as [v1 |] eqn:E1; [| discriminate].
  destruct (Dict.get d "name") as [v2 |] eqn:E2; [| discriminate].
  destruct (Dict.get d "description") as [v3 |] eqn:E3; [| discriminate].
  destruct (Dict.get d "features") as [v4 |] eqn:E4; [| discriminate].
  destruct (Dict.get d "review_summary") as [v5 |] eqn:E5; [| discriminate].
  injection H as <-. split; [reflexivity |]. split.
  - intros k [<- | [<- | [<- | [<- | [<- | []]]]]]; simpl; congruence.
  - intros k Hk. unfold item_fields in Hk. simpl in Hk. cbn [Dict.get].
    repeat match goal with
           | |- context [String.eqb ?a k] =>
               destruct (String.eqb_spec a k); [exfalso; tauto |]
           end.
    reflexivity.
Qed.

(** X8.  Building an item fails exactly when the record lacks one of the
    five fields, and the [KeyError] names the first one missing in the
    order ASIN, name, description, features, review_summary; a record
    that has all five always gives an item. *)
Theorem new_item_key_error (d : Dict.t pyval) :
  (forall e,
     new_item d = Raise e <->
     exists before k after,
       item_fields = before ++ k :: after
       /\ e = KeyError k
       /\ Dict.get d k = None
       /\ Forall (fun k' => Dict.get d k' <> None) before)
  /\ (Forall (fun k => Dict.get d k <> None) item_fields <->
      exists it, new_item d = Ok it).
Proof.
  unfold new_item, subscript, item_fields. split; [intros e; split | split].
  - intros H.
    destruct (Dict.get d "ASIN") as [v1 |] eqn:E1;
      [| injection H as <-; exists [], "ASIN", (tl item_fields);
         repeat split; auto].
    destruct (Dict.get d "name") as [v2 |] eqn:E2;
      [| injection H as <-; exists ["ASIN"], "name", (skipn 2 item_fields);
         repeat split; auto; repeat constructor; congruence].
    destruct (Dict.get d "description") as [v3 |] eqn:E3;
      [| injection H as <-;
         exists ["ASIN"; "name"], "description", (skipn 3 item_fields);
         repeat split; auto; repeat constructor; congruence].
    destruct (Dict.get d "features") as [v4 |] eqn:E4;
      [| injection H as <-;
         exists ["ASIN"; "name"; "description"], "features",
           (skipn 4 item_fields);
         repeat split; auto; repeat constructor; congruence].
    destruct (Dict.get d "review_summary") as [v5 |] eqn:E5;
      [discriminate |].
    injection H as <-.
    exists ["ASIN"; "name"; "description"; "features"], "review_summary", [].
    repeat split; auto; repeat constructor; congruence.
  - intros [before [k [after [Hsplit [-> [Hk Hbefore]]]]]].
    destruct before as [| b1 [| b2 [| b3 [| b4 [| b5 before]]]]];
      simpl in Hsplit; injection Hsplit as <-;
      repeat match goal with
             | H : _ :: _ = _ :: _ |- _ => injection H as <-
             | H : _ :: _ = _ |- _ => injection H as <-
             end; subst;
      repeat match goal with
             | H : Forall _ (_ :: _) |- _ => inversion H; clear H; subst
             end.
    + now rewrite Hk.
    + destruct (Dict.get d "ASIN"); [| congruence]. now rewrite Hk.
    + destruct (Dict.get d "ASIN"); [| congruence].
      destruct (Dict.get d "name"); [| congruence]. now rewrite Hk.
    + destruct (Dict.get d "ASIN"); [| congruence].
      destruct (Dict.get d "name"); [| congruence].
      destruct (Dict.get d "description"); [| congruence]. now rewrite Hk.
    + destruct (Dict.get d "ASIN"); [| congruence].
      destruct (Dict.get d "name"); [| congruence].
      destruct (Dict.get d "description"); [| congruence].
      destruct (Dict.get d "features"); [| congruence]. now rewrite Hk.
    + destruct before; discriminate.
  - intros H.
    repeat match goal with
           | H : Forall _ (_ :: _) |- _ => inversion H; clear H; subst
           end.
    destruct (Dict.get d "ASIN"); [| congruence].
    destruct (Dict.get d "name"); [| congruence].
    destruct (Dict.get d "description"); [| congruence].
    destruct (Dict.get d "features"); [| congruence].
    destruct (Dict.get d "review_summary"); [| congruence].
    eexists. reflexivity.
  - intros [it H].
    destruct (Dict.get d "ASIN") eqn:E1; [| discriminate].
    destruct (Dict.get d "name") eqn:E2; [| discriminate].
    destruct (Dict.get d "description") eqn:E3; [| discriminate].
    destruct (Dict.get d "features") eqn:E4; [| discriminate].
    destruct (Dict.get d "review_summary") eqn:E5; [| discriminate].
    repeat (apply Forall_cons; [congruence |]). apply Forall_nil.
Qed.

Lemma insert_all_submit (batches : list (list item)) :
  forall s s' : Store collection,
    insert_all s batches = Some s' ->
    submit batches s = (s', batches, Ok tt).
Proof.
  induction batches as [| b bs IH]; intros s s' H.
  - simpl in H. injection H as <-. reflexivity.
  - rewrite submit_cons. cbn [insert_all] in H.
    destruct (insert_many collection s b) as [s1 [[] | e]]; [| discriminate].
    now rewrite (IH _ _ H).
Qed.

Lemma insert_all_app (bs1 bs2 : list (list item)) :
  forall s : Store collection,
    insert_all s (bs1 ++ bs2)
    = match insert_all s bs1 with
      | Some s1 => insert_all s1 bs2
      | None => None
      end.
Proof.
  induction bs1 as [| b bs1 IH]; intros s; [reflexivity |].
  cbn [app insert_all].
  destruct (insert_many collection s b) as [s1 [[] | e]]; [apply IH | reflexivity].
Qed.

Lemma Dict_get_None_iff {V} (d : Dict.t V) (k : string) :
  Dict.get d k = None <-> ~ In k (Dict.keys d).
Proof.
  induction d as [| [k' v'] d IH]; simpl; [tauto |].
  destruct (String.eqb_spec k' k) as [-> | Hne].
  - split; [discriminate | tauto].
  - rewrite IH. tauto.
Qed.

Lemma new_item_raises_missing (d : Dict.t pyval) (e : exn) :
  new_item d = Raise e ->
  exists k, e = KeyError k /\ In k item_fields /\ ~ In k (Dict.keys d).
Proof.
  unfold new_item, subscript, item_fields. intros H.
  destruct (Dict.get d "ASIN") eqn:E1;
    [| injection H as <-; exists "ASIN"; split; [reflexivity |];
       split; [simpl; tauto | now apply Dict_get_None_iff]].
  destruct (Dict.get d "name") eqn:E2;
    [| injection H as <-; exists "name"; split; [reflexivity |];
       split; [simpl; tauto | now apply Dict_get_None_iff]].
  destruct (Dict.get d "description") eqn:E3;
    [| injection H as <-; exists "description"; split; [reflexivity |];
       split; [simpl; tauto | now apply Dict_get_None_iff]].
  destruct (Dict.get d "features") eqn:E4;
    [| injection H as <-; exists "features"; split; [reflexivity |];
       split; [simpl; tauto | now apply Dict_get_None_iff]].
  destruct (Dict.get d "review_summary") eqn:E5; [discriminate |].
  injection H as <-. exists "review_summary". split; [reflexivity |].
  split; [simpl; tauto | now apply Dict_get_None_iff].
Qed.

(** Whether a record converts depends on its keys alone. *)
Lemma new_item_same_keys (d1 d2 : Dict.t pyval) (it1 : item) :
  Dict.keys d1 = Dict.keys d2 ->
  new_item d1 = Ok it1 ->
  exists it2, new_item d2 = Ok it2.
Proof.
  intros Hkeys H1.
  destruct (new_item d2) as [it2 | e] eqn:H2; [now exists it2 |].
  exfalso.
  destruct (new_item_raises_missing _ H2) as [k [_ [Hk Hmiss]]].
  rewrite <- Hkeys in Hmiss. apply Dict_get_None_iff in Hmiss.
  unfold new_item, subscript in H1. unfold item_fields in Hk.
  destruct (Dict.get d1 "ASIN") eqn:E1; [| discriminate].
  destruct (Dict.get d1 "name") eqn:E2; [| discriminate].
  destruct (Dict.get d1 "description") eqn:E3; [| discriminate].
  destruct (Dict.get d1 "features") eqn:E4; [| discriminate].
  destruct (Dict.get d1 "review_summary") eqn:E5; [| discriminate].
  destruct Hk as [<- | [<- | [<- | [<- | [<- | []]]]]]; congruence.
Qed.

Lemma new_item_has_fields (d : Dict.t pyval) (it : item) :
  new_item d = Ok it -> forall k, In k item_fields -> In k (Dict.keys d).
Proof.
  intros H k Hk.
  destruct (in_dec string_dec k (Dict.keys d)) as [Hin | Hout]; [exact Hin |].
  exfalso. apply Dict_get_None_iff in Hout.
  unfold new_item, subscript in H. unfold item_fields in Hk.
  destruct (Dict.get d "ASIN") eqn:E1; [| discriminate].
  destruct (Dict.get d "name") eqn:E2; [| discriminate].
  destruct (Dict.get d "description") eqn:E3; [| discriminate].
  destruct (Dict.get d "features") eqn:E4; [| discriminate].
  destruct (Dict.get d "review_summary") eqn:E5; [| discriminate].
  destruct Hk as [<- | [<- | [<- | [<- | [<- | []]]]]]; congruence.
Qed.

(** X9.  The records of [data_list] come out of one frame, so they all
    carry the same keys, the frame's columns, and a field that is missing
    is missing from the first record on.  Ingestion then has only two
    courses: the five item fields are all columns and every record converts
    to an item; or the cell raises [KeyError] on the first record, for an
    item field that is no column, before any [insert_many] call and with
    the store untouched.  It never stops on a [KeyError] of a record after
    some groups were inserted. *)
Theorem ingestion_key_error_before_any_insert
        (data_list : list (Dict.t pyval)) (columns : list string)
        (s : Store collection) :
  Forall (fun d => Dict.keys d = columns) data_list ->
  data_list <> [] ->
  ((forall k, In k item_fields -> In k columns)
   /\ exists items, Forall2 (fun d it => new_item d = Ok it) data_list items)
  \/ (exists k,
        In k item_fields /\ ~ In k columns
        /\ ingest data_list (ingest_init s)
           = (ingest_init s, Raise (KeyError k))).
Proof.
  intros Hcols Hne. destruct data_list as [| d ds]; [congruence |].
  inversion Hcols as [| ? ? Hd Hds]; subst.
  destruct (new_item d) as [it | e] eqn:Hnew.
  - left. split; [exact (new_item_has_fields d Hnew) |].
    assert (Hall : forall l, Forall (fun d' => Dict.keys d' = Dict.keys d) l ->
                     exists items,
                       Forall2 (fun d' it' => new_item d' = Ok it') l items).
    { induction 1 as [| d' l Hd' _ [items IH]]; [now exists [] |].
      destruct (new_item_same_keys d d' (eq_sym Hd') Hnew) as [it' Hit'].
      exists (it' :: items). now constructor. }
    destruct (Hall ds Hds) as [items Hitems].
    exists (it :: items). now constructor.
  - right. destruct (new_item_raises_missing _ Hnew) as [k [-> [Hk Hmiss]]].
    exists k. repeat split; try assumption.
    unfold ingest, bind. cbn [for_each]. unfold bind, ingest_record, bind, lift.
    now rewrite Hnew.
Qed.

(** X10.  When the store accepts every group, ingestion leaves it as the
    groups of 100 inserted one after the other leave it, starting from the
    store it was given (untouched, with no call, when there is no record);
    and the pending list is not cleared after the last call: it still
    holds the remainder group. *)
Theorem ingestion_accepted_result
        (data_list : list (Dict.t pyval)) (items : list item)
        (s s' : Store collection) :
  Forall2 (fun d it => new_item d = Ok it) data_list items ->
  insert_all s (chunks 100 items) = Some s' ->
  let run := ingest data_list (ingest_init s) in
  snd run = Ok tt
  /\ store (fst run) = s'
  /\ insert_calls (fst run) = chunks 100 items
  /\ items_to_insert (fst run)
     = skipn (100 * (List.length items / 100)) items.
Proof.
  intros Hitems Hacc run.
  destruct (ingest_spec _ Hitems (insert_all_submit _ _ Hacc))
    as [Hstore [Hcalls Hr]].
  fold run in Hstore, Hcalls, Hr.
  repeat split; try assumption.
  subst run. unfold ingest, bind, gets.
  rewrite (ingest_records_as_items _ Hitems).
  destruct (chunks_fuel_split (fuel := List.length items) items (le_n _))
    as [_ [Hrem Hsplit]].
  fold (chunks 100 items) in Hsplit.
  rewrite Hsplit, insert_all_app in Hacc.
  destruct (insert_all s (firstn (List.length items / 100) (chunks 100 items)))
    as [s1 |] eqn:Hfull; [| discriminate].
  destruct (push_loop_spec (fuel := List.length items) items (ingest_init s)
              (le_n _) eq_refl (insert_all_submit _ _ Hfull))
    as [H1 [H2 [H3 H4]]].
  specialize (H4 eq_refl).
  destruct (for_each items push_item (ingest_init s)) as [st1 o1].
  cbn [fst snd] in *. subst o1. rewrite H4, Hrem.
  destruct (Nat.ltb 0 (List.length items mod 100)); [| exact H4].
  unfold call_insert_many.
  destruct (insert_many collection (store st1) (items_to_insert st1))
    as [s2 o2]. cbn [fst items_to_insert]. exact H4.
Qed.

(** ** More on retrieval and the assistants *)

(** X11.  When the hybrid query raises, [predict] ends with that exception
    before anything else happens: the query is the only call made, no
    request reaches the chat endpoint and nothing is yielded. *)
Theorem predict_query_failure (msg : string)
        (history : list (string * string)) (st : chat_state) (e : exn) :
  hybrid collection msg 5 = Raise e ->
  predict msg history st
  = ({| hybrid_queries := hybrid_queries st ++ [(msg, 5)];
        stream_requests := stream_requests st;
        yielded := yielded st |},
     Raise e).
Proof.
  intros Hq.
  unfold predict, predict_messages, get_context, bind, query_hybrid.
  now rewrite Hq.
Qed.

(** X12.  When the query answers but the chat endpoint raises on the
    streaming request, [predict] ends with the endpoint's exception: the
    request was sent once, with the full message list, and nothing is
    yielded. *)
Theorem predict_endpoint_failure (msg : string)
        (history : list (string * string)) (st : chat_state)
        (objects : list item) (e : exn) :
  let sent :=
    flat_map turn_messages history
    ++ [user_message
          (sales_template_format msg
             (join nl (map (str_properties py) objects)))] in
  hybrid collection msg 5 = Ok objects ->
  chat_completions_stream client (stream_request sent) = Raise e ->
  predict msg history st
  = ({| hybrid_queries := hybrid_queries st ++ [(msg, 5)];
        stream_requests := stream_requests st ++ [stream_request sent];
        yielded := yielded st |},
     Raise e).
Proof.
  intros sent Hq Hs.
  unfold predict, predict_messages, get_context, bind, query_hybrid, ret,
    create_stream.
  rewrite Hq, history_loop_spec. cbn [stream_requests hybrid_queries yielded].
  fold sent. fold (stream_request sent). now rewrite Hs.
Qed.

(** X13.  The last value a stream makes [predict] yield is the complete
    answer, the concatenation of all its non-[None] contents; a stream
    whose chunks all have [None] content yields nothing at all. *)
Theorem consume_last_yield (response : list chunk) (st : chat_state) :
  let run := consume "" response st in
  (deltas response = [] -> yielded (fst run) = yielded st)
  /\ (deltas response <> [] ->
      last (yielded (fst run)) "" = cat (deltas response)).
Proof.
  intros run. subst run. rewrite consume_spec. cbn [fst yielded].
  split.
  - intros ->. simpl. apply app_nil_r.
  - intros Hne.
    destruct (List.length (deltas response)) as [| m] eqn:Hlen.
    + destruct (deltas response); [congruence | discriminate].
    + rewrite seq_S, map_app, app_assoc. cbn [map].
      rewrite last_last. cbn [String.append Nat.add].
      now rewrite firstn_all2 by lia.
Qed.

Lemma in_chat_get_context (question : string) (limit : Z)
      (st : assistant_state) :
  in_chat (get_context question limit) st
  = ({| chat :=
          {| hybrid_queries := hybrid_queries (chat st) ++ [(question, limit)];
             stream_requests := stream_requests (chat st);
             yielded := yielded (chat st) |};
        create_requests := create_requests st |},
     match hybrid collection question limit with
     | Ok objects => Ok (join nl (map (str_properties py) objects))
     | Raise e => Raise e
     end).
Proof.
  unfold in_chat, get_context, bind, query_hybrid, ret.
  now destruct (hybrid collection question limit).
Qed.


(** X15.  When the hybrid query raises, [sales_assistant] ends with that
    exception and the chat endpoint is never called. *)
Theorem sales_assistant_query_failure (question : string)
        (st : assistant_state) (e : exn) :
  hybrid collection question 10 = Raise e ->
  let run := sales_assistant question st in
  snd run = Raise e
  /\ create_requests (fst run) = create_requests st
  /\ hybrid_queries (chat (fst run))
     = hybrid_queries (chat st) ++ [(question, 10)].
Proof.
  intros Hq run.
  assert (Hrun : snd run = Raise e
                 /\ fst run
                    = {| chat :=
                           {| hybrid_queries :=
                                hybrid_queries (chat st) ++ [(question, 10)];
                              stream_requests := stream_requests (chat st);
                              yielded := yielded (chat st) |};
                         create_requests := create_requests st |}).
  { subst run. unfold sales_assistant, bind.
    rewrite in_chat_get_context, Hq. auto. }
  destruct Hrun as [Hr Hst]. rewrite Hr, Hst. auto.
Qed.

(** X16.  The sales prompt does not delimit the question: [format] pastes
    question and context in as they are, so text that follows the words
    "Product context: " inside a question reads exactly like context.  A
    question ending in the separator and some text [c], with context [z],
    gives the same prompt as the bare question with context [c], the
    separator and [z]. *)
Theorem sales_prompt_not_delimited (question c z : string) :
  sales_template_format (question ++ context_separator ++ c) z
  = sales_template_format question (c ++ context_separator ++ z).
Proof.
  unfold sales_template_format, context_separator. cbn [join].
  repeat rewrite string_app_assoc. reflexivity.
Qed.

End Notebook.

(** ** The cells run on the sample data *)

Example sample_py_slice :
  py_slice [1; 2; 3; 4; 5] 0 3 = [1; 2; 3]
  /\ py_slice [1; 2; 3; 4; 5] 0 20 = [1; 2; 3; 4; 5]
  /\ py_slice [1; 2; 3; 4; 5] 0 (-1) = [1; 2; 3; 4]
  /\ py_slice [1; 2; 3; 4; 5] (-2) 10 = [4; 5]
  /\ py_slice [1; 2; 3; 4; 5] 3 1 = [].
Proof. repeat split; reflexivity. Qed.

Example sample_unique :
  unique ["b"; "a"; "b"; "c"; "a"] = ["b"; "a"; "c"].
Proof. reflexivity. Qed.

Example sample_render :
  render (Progress 0 3 "A") = "Getting review summary 0 of 3, ASIN: A"
  /\ render (Skipping "A") = "Issue with ASIN A, skipping"
  /\ str_list sample_repr ["great tone"; "arrived late"]
     = "['great tone', 'arrived late']".
Proof. repeat split; reflexivity. Qed.

(** The aggregation cell after the notebook's code cells: [asin_list] is
    unbound. *)
Example sample_aggregation_as_shipped :
  aggregation_cell sample_pandas asin_list_as_shipped sample_df 2
  = ([], Raise (NameError "asin_list")).
Proof. reflexivity. Qed.

(** The same cell once [asin_list] holds the value of the statement shown
    in the text cell. *)
Example sample_aggregation_when_bound :
  let run :=
    aggregation_cell sample_pandas (Some (unique (map asin sample_df)))
      sample_df 2 in
  snd run = Ok tt
  /\ Dict.keys (fst run) = ["X1"; "X2"]
  /\ Dict.get (fst run) "X1"
     = Some ["review at 30"; "review at 20"; "review at 10"].
Proof. repeat split; vm_compute; reflexivity. Qed.

Example sample_summarize_run :
  let run := summarize sample_client sample_py sample_review_dict summarizer_init in
  snd run = Ok tt
  /\ review_summaries (fst run)
     = [PyDict [("name", PyStr "Harmonica"); ("ASIN", PyStr "B")]]
  /\ counter (fst run) = 3%nat
  /\ stdout (fst run)
     = [ Progress 0 3 "A"; Skipping "A";
         Progress 1 3 "B"; Response (Some "{B}");
         Progress 2 3 "C"; Response (Some "Sure! Here is the summary");
         Skipping "C" ].
Proof. repeat split; vm_compute; reflexivity. Qed.

Example sample_ingest_run :
  let run := ingest (repeat sample_record 250)
               (ingest_init sample_collection []) in
  snd run = Ok tt
  /\ map (@List.length item) (insert_calls (fst run)) = [100; 100; 50]%nat
  /\ store (fst run) = repeat sample_item 250.
Proof. repeat split; vm_compute; reflexivity. Qed.

Example sample_ingest_refused :
  let run := ingest (repeat sample_record 250)
               (ingest_init (capped_collection 150) 0%nat) in
  snd run = Raise (ServiceError "store is full")
  /\ map (@List.length item) (insert_calls (fst run)) = [100; 100]%nat
  /\ store (fst run) = 100%nat.
Proof. repeat split; vm_compute; reflexivity. Qed.

Example sample_predict_run :
  let run := predict sample_client sample_py sample_collection
               "a small instrument?" [("hi", "hello")] chat_init in
  snd run = Ok tt
  /\ yielded (fst run) = ["Try "; "Try a harmonica"]
  /\ hybrid_queries (fst run) = [("a small instrument?", 5)]
  /\ map (fun req => List.length (messages req)) (stream_requests (fst run))
     = [3%nat].
Proof. repeat split; vm_compute; reflexivity. Qed.

Example sample_get_context :
  snd (get_context sample_py sample_collection "harmonica" 1 chat_init)
  = Ok "{'name': 'Harmonica'}"
  /\ snd (get_context sample_py sample_collection "harmonica" 3 chat_init)
     = Ok ("{'name': 'Harmonica'}" ++ nl ++ "{'name': 'Harmonica'}")%string.
Proof. split; vm_compute; reflexivity. Qed.

(** ** The results at concrete inputs *)

Lemma Forall2_repeat {A B} (R : A -> B -> Prop) (x : A) (y : B) (n : nat) :
  R x y -> Forall2 R (repeat x n) (repeat y n).
Proof. intros H. induction n; simpl; constructor; assumption. Qed.

(** The shipped aggregation cell on the two-product sample with limit 2:
    no key where the contract asks for two. *)
Lemma aggregation_cell_as_shipped_witness :
  sample_df <> []
  /\ (0 < 2)%nat
  /\ snd (aggregation_cell sample_pandas asin_list_as_shipped sample_df
            (Z.of_nat 2))
     = Raise (NameError "asin_list")
  /\ List.length
       (Dict.keys
          (fst (aggregation_cell sample_pandas asin_list_as_shipped sample_df
                  (Z.of_nat 2))))
     <> Nat.min 2 (List.length (nodup string_dec (map asin sample_df))).
Proof.
  assert (H1 : sample_df <> []) by discriminate.
  assert (H2 : (0 < 2)%nat) by lia.
  split; [exact H1 |]. split; [exact H2 |].
  destruct (aggregation_cell_as_shipped sample_pandas sample_df 2)
    as [Hr [_ Hkeys]].
  split; [exact Hr | exact (Hkeys H1 H2)].
Defined.

(** The stored groups on the sample once [asin_list] is bound: each is
    the product's whole group, and there is one for "X1" and one for "X2". *)
Lemma aggregation_stores_whole_groups_witness :
  sort_contract (sort_values_desc sample_pandas)
  /\ Forall
       (fun entry =>
          exists rows,
            snd entry = map reviewText rows
            /\ Permutation rows
                 (filter (fun r => String.eqb (asin r) (fst entry)) sample_df)
            /\ StronglySorted newer_or_same rows
            /\ List.length (snd entry)
               = List.length
                   (filter (fun r => String.eqb (asin r) (fst entry))
                      sample_df))
       (fst (aggregation_cell sample_pandas
               (Some (unique (map asin sample_df))) sample_df 2))
  /\ (forall a,
        In a (Dict.keys
                (fst (aggregation_cell sample_pandas
                        (Some (unique (map asin sample_df))) sample_df 2)))
        <-> In a (py_slice (unique (map asin sample_df)) 0 2)).
Proof.
  assert (H : sort_contract (sort_values_desc sample_pandas))
    by exact insertion_sort_contract.
  split; [exact H |].
  destruct (aggregation_stores_whole_groups sample_pandas
              (Some (unique (map asin sample_df))) sample_df 2 H)
    as [Hgroups Hkeys].
  split; [exact Hgroups |].
  exact (proj2 (Hkeys _ eq_refl)).
Defined.

(** Product "X2" of the sample has 25 reviews.  After the notebook's code
    cells the aggregator holds no group for it at all, so not its most
    recent [N] reviews for any [N]; and once [asin_list] is bound it holds
    all 25 of them, more than 20. *)
Lemma aggregator_does_not_truncate :
  (forall N,
     Dict.get
       (fst (aggregation_cell sample_pandas asin_list_as_shipped sample_df 2))
       "X2"
     <> Some (firstn N (product_reviews sample_pandas sample_df "X2")))
  /\ exists reviews,
       Dict.get
         (fst (aggregation_cell sample_pandas
                 (Some (unique (map asin sample_df))) sample_df 2))
         "X2"
       = Some reviews
       /\ List.length reviews = 25%nat
       /\ ~ (List.length reviews <= 20)%nat.
Proof.
  split.
  - intros N. discriminate.
  - exists (product_reviews sample_pandas sample_df "X2").
    split; [vm_compute; reflexivity |].
    split; [vm_compute; reflexivity |].
    vm_compute. lia.
Qed.

(** Batching 205 product records into a store that accepts everything. *)
Lemma ingestion_batching_witness :
  Forall2 (fun d it => new_item d = Ok it)
    (repeat sample_record 205) (repeat sample_item 205)
  /\ (forall st b, snd (insert_many sample_collection st b) = Ok tt)
  /\ snd (ingest (repeat sample_record 205) (ingest_init sample_collection []))
     = Ok tt
  /\ List.length
       (insert_calls
          (fst (ingest (repeat sample_record 205)
                  (ingest_init sample_collection []))))
     = 3%nat.
Proof.
  assert (H1 : Forall2 (fun d it => new_item d = Ok it)
                 (repeat sample_record 205) (repeat sample_item 205))
    by (apply Forall2_repeat; reflexivity).
  assert (H2 : forall st b, snd (insert_many sample_collection st b) = Ok tt)
    by (intros st b; reflexivity).
  split; [exact H1 |]. split; [exact H2 |].
  destruct (ingestion_batching sample_collection [] H1 H2) as [Hok [Hcount _]].
  split; [exact Hok | exact Hcount].
Defined.

(** 250 product records into a store with room for 150: the second call is
    the first to be refused. *)
Lemma ingestion_failure_propagates_witness :
  Forall2 (fun d it => new_item d = Ok it)
    (repeat sample_record 250) (repeat sample_item 250)
  /\ nth_error (chunks 100 (repeat sample_item 250)) 1
     = Some (repeat sample_item 100)
  /\ insert_all (capped_collection 150) 0%nat
       (firstn 1 (chunks 100 (repeat sample_item 250)))
     = Some 100%nat
  /\ insert_many (capped_collection 150) 100%nat (repeat sample_item 100)
     = (100%nat, Raise (ServiceError "store is full"))
  /\ snd (ingest (repeat sample_record 250)
            (ingest_init (capped_collection 150) 0%nat))
     = Raise (ServiceError "store is full")
  /\ List.length
       (insert_calls
          (fst (ingest (repeat sample_record 250)
                  (ingest_init (capped_collection 150) 0%nat))))
     = 2%nat.
Proof.
  assert (H1 : Forall2 (fun d it => new_item d = Ok it)
                 (repeat sample_record 250) (repeat sample_item 250))
    by (apply Forall2_repeat; reflexivity).
  assert (H2 : nth_error (chunks 100 (repeat sample_item 250)) 1
               = Some (repeat sample_item 100))
    by (vm_compute; reflexivity).
  assert (H3 : insert_all (capped_collection 150) 0%nat
                 (firstn 1 (chunks 100 (repeat sample_item 250)))
               = Some 100%nat)
    by (vm_compute; reflexivity).
  assert (H4 : insert_many (capped_collection 150) 100%nat
                 (repeat sample_item 100)
               = (100%nat, Raise (ServiceError "store is full")))
    by (vm_compute; reflexivity).
  repeat (split; [assumption |]).
  destruct (ingestion_failure_propagates (capped_collection 150) 0%nat 1 H1 H2 H3 H4)
    as [Hr [_ [Hlen _]]].
  split; [exact Hr | exact Hlen].
Defined.



(** One earlier turn and a new question: three messages go out, the second
    being the assistant's earlier answer. *)
Lemma predict_forwards_history_witness :
  hybrid sample_collection "a small instrument?" 5
  = Ok [sample_item; sample_item]
  /\ nth_error [("hi", "hello")] 0 = Some ("hi", "hello")
  /\ map msg_content
       (flat_map messages
          (stream_requests
             (fst (predict sample_client sample_py sample_collection
                     "a small instrument?" [("hi", "hello")] chat_init))))
     = [ "hi"; "hello";
         sales_template_format "a small instrument?"
           (join nl (map sample_str_properties [sample_item; sample_item])) ].
Proof.
  assert (Hq : hybrid sample_collection "a small instrument?" 5
               = Ok [sample_item; sample_item]) by (vm_compute; reflexivity).
  split; [exact Hq |]. split; [reflexivity |].
  destruct (predict_forwards_history sample_client sample_py sample_collection
              "a small instrument?" [("hi", "hello")] chat_init Hq)
    as [_ [_ [_ [_ Hreq]]]].
  rewrite Hreq. vm_compute. reflexivity.
Defined.

(** The sample stream carries two texts around an empty chunk. *)
Lemma predict_streaming_prefixes_witness :
  hybrid sample_collection "a small instrument?" 5
  = Ok [sample_item; sample_item]
  /\ yielded
       (fst (predict sample_client sample_py sample_collection
               "a small instrument?" [("hi", "hello")] chat_init))
     = ["Try "; "Try a harmonica"].
Proof.
  assert (Hq : hybrid sample_collection "a small instrument?" 5
               = Ok [sample_item; sample_item]) by (vm_compute; reflexivity).
  split; [exact Hq |].
  destruct (predict_streaming_prefixes sample_client sample_py sample_collection
              [ {| delta_content := Some "Try " |};
                {| delta_content := None |};
                {| delta_content := Some "a harmonica" |} ] chat_init)
    as [_ [_ [_ [_ [_ Hpredict]]]]].
  destruct (Hpredict "a small instrument?" [("hi", "hello")] _ Hq eq_refl)
    as [_ Hy].
  exact Hy.
Defined.

(** ** The further results at concrete inputs *)

(** The sample record turned into its item. *)
Lemma new_item_projection_witness :
  new_item sample_record = Ok sample_item
  /\ Dict.keys sample_item = item_fields
  /\ Dict.get sample_item "name" = Dict.get sample_record "name".
Proof.
  assert (H : new_item sample_record = Ok sample_item) by reflexivity.
  split; [exact H |].
  destruct (new_item_projection sample_record H) as [Hkeys [Hget _]].
  split; [exact Hkeys | apply Hget; simpl; auto].
Defined.

(** Three records of a frame that has no "features" column: the cell stops
    on the first with a [KeyError], the store untouched. *)
Lemma ingestion_key_error_before_any_insert_witness :
  Forall (fun d => Dict.keys d = Dict.keys sample_bad_record)
    (repeat sample_bad_record 3)
  /\ repeat sample_bad_record 3 <> []
  /\ exists k,
       In k item_fields /\ ~ In k (Dict.keys sample_bad_record)
       /\ ingest (repeat sample_bad_record 3)
            (ingest_init sample_collection [])
          = (ingest_init sample_collection [], Raise (KeyError k)).
Proof.
  assert (H : Forall (fun d => Dict.keys d = Dict.keys sample_bad_record)
                (repeat sample_bad_record 3)) by (repeat constructor).
  assert (Hne : repeat sample_bad_record 3 <> []) by discriminate.
  split; [exact H |]. split; [exact Hne |].
  destruct (ingestion_key_error_before_any_insert sample_collection [] H Hne)
    as [[Hall _] | Hstop].
  - exfalso.
    assert (Hin : In "features" (Dict.keys sample_bad_record))
      by (apply Hall; simpl; tauto).
    vm_compute in Hin. intuition discriminate.
  - exact Hstop.
Defined.

(** 205 good records into the store that keeps everything. *)
Lemma ingestion_accepted_result_witness :
  Forall2 (fun d it => new_item d = Ok it)
    (repeat sample_record 205) (repeat sample_item 205)
  /\ insert_all sample_collection [] (chunks 100 (repeat sample_item 205))
     = Some (repeat sample_item 205)
  /\ store (fst (ingest (repeat sample_record 205)
                   (ingest_init sample_collection [])))
     = repeat sample_item 205
  /\ items_to_insert (fst (ingest (repeat sample_record 205)
                             (ingest_init sample_collection [])))
     = skipn (100 * (List.length (repeat sample_item 205) / 100))
         (repeat sample_item 205).
Proof.
  assert (H1 : Forall2 (fun d it => new_item d = Ok it)
                 (repeat sample_record 205) (repeat sample_item 205))
    by (apply Forall2_repeat; reflexivity).
  assert (H2 : insert_all sample_collection []
                 (chunks 100 (repeat sample_item 205))
               = Some (repeat sample_item 205))
    by (vm_compute; reflexivity).
  split; [exact H1 |]. split; [exact H2 |].
  destruct (ingestion_accepted_result sample_collection [] H1 H2)
    as [_ [Hstore [_ Hpending]]].
  split; [exact Hstore | exact Hpending].
Defined.

(** [predict] against a store that cannot be reached. *)
Lemma predict_query_failure_witness :
  hybrid offline_collection "a small instrument?" 5
  = Raise (ServiceError "unreachable")
  /\ predict sample_client sample_py offline_collection
       "a small instrument?" [("hi", "hello")] chat_init
     = ({| hybrid_queries := [("a small instrument?", 5)];
           stream_requests := [];
           yielded := [] |},
        Raise (ServiceError "unreachable")).
Proof.
  assert (H : hybrid offline_collection "a small instrument?" 5
              = Raise (ServiceError "unreachable")) by reflexivity.
  split; [exact H |].
  exact (predict_query_failure sample_client sample_py offline_collection
           "a small instrument?" [("hi", "hello")] chat_init H).
Defined.

(** [predict] against an endpoint that refuses the request. *)
Lemma predict_endpoint_failure_witness :
  hybrid sample_collection "a small instrument?" 5
  = Ok [sample_item; sample_item]
  /\ snd (predict offline_client sample_py sample_collection
            "a small instrument?" [("hi", "hello")] chat_init)
     = Raise (ServiceError "refused")
  /\ yielded (fst (predict offline_client sample_py sample_collection
                     "a small instrument?" [("hi", "hello")] chat_init))
     = [].
Proof.
  assert (Hq : hybrid sample_collection "a small instrument?" 5
               = Ok [sample_item; sample_item]) by (vm_compute; reflexivity).
  split; [exact Hq |].
  rewrite (predict_endpoint_failure offline_client sample_py sample_collection
             "a small instrument?" [("hi", "hello")] chat_init Hq eq_refl).
  split; reflexivity.
Defined.


(** [sales_assistant] against a store that cannot be reached. *)
Lemma sales_assistant_query_failure_witness :
  hybrid offline_collection "a small instrument?" 10
  = Raise (ServiceError "unreachable")
  /\ snd (sales_assistant sample_client sample_py offline_collection
            "a small instrument?" assistant_init)
     = Raise (ServiceError "unreachable")
  /\ create_requests
       (fst (sales_assistant sample_client sample_py offline_collection
               "a small instrument?" assistant_init))
     = [].
Proof.
  assert (H : hybrid offline_collection "a small instrument?" 10
              = Raise (ServiceError "unreachable")) by reflexivity.
  split; [exact H |].
  destruct (sales_assistant_query_failure sample_client sample_py
              offline_collection "a small instrument?" assistant_init H)
    as [Hr [Hreq _]].
  split; [exact Hr | exact Hreq].
Defined.
